(** * momoapi-node: the Disbursements façade, the client factory and the
      authenticated transport

    A shallow embedding of [src/disbursements.ts], of the factory module
    (the file that exports the [MomoClient] creator) and of the axios mock
    of [tests/mock.ts], followed by the properties of the specification
    that concern them.

    JavaScript objects are finite maps from property names to values,
    promises are computations in a state-and-rejection monad over a world
    that records every observable effect (identifier generation, HTTP
    calls, console output) in the order in which it happens. *)

From stdpp Require Import base option gmap strings list.
From Stdlib Require Import ZArith Ascii String.

Local Open Scope string_scope.

(** ** JavaScript values and objects *)

Module Js.

(** The values that occur in the payloads and configurations of this
    library: [undefined], [null], booleans, integral numbers, strings and
    plain objects. *)
#[warnings="-register-all"]
Inductive value : Type :=
| Undefined : value
| Null : value
| Bool : bool -> value
| Num : Z -> value
| Str : string -> value
| Obj : gmap string value -> value.

Abbreviation object := (gmap string value).

(** [ToBoolean]: what [v ? a : b] tests. *)
Definition truthy (v : value) : bool :=
  match v with
  | Undefined | Null => false
  | Bool b => b
  | Num n => negb (n =? 0)%Z
  | Str s => negb (String.eqb s "")
  | Obj _ => true
  end.

(** Reading a property: an absent property reads as [undefined]. *)
Definition get (o : object) (k : string) : value :=
  default Undefined (o !! k).

(** Object spread [{...a, ...b}]: the own properties of [a], then those
    of [b], a later occurrence of a key replacing an earlier one. *)
Definition spread (a b : object) : object := b ∪ a.

(** Rest destructuring [{k, ...rest}]: every own property but [k]. *)
Definition rest (k : string) (o : object) : object := delete k o.

End Js.

(** ** Requests, responses and the promise monad *)

Module Http.

Inductive method : Type := GET | POST.

(** An axios request configuration: what [client.get(url)] and
    [client.post(url, data, { headers })] build, and what the adapter
    finally receives once the instance defaults are merged in. *)
Record request : Type := mkRequest {
  baseURL : option string;
  verb : method;
  url : string;
  data : option Js.object;
  headers : Js.object
}.

(** An axios response: [response.data] is the decoded body and
    [response.config] the request that produced it. *)
Record response : Type := mkResponse {
  status : Z;
  body : Js.value;
  config : request
}.

End Http.

(** Why a promise is rejected, or a synchronous call throws. *)
Inductive reason : Type :=
| ValidationError (detail : string)
| ConfigurationError (detail : string)
| AxiosError (response : option Http.response)
| AuthenticationFailure (response : option Http.response).

Inductive outcome (A : Type) : Type :=
| Resolved (a : A)
| Rejected (why : reason).
Arguments Resolved {A} a.
Arguments Rejected {A} why.

(** Every observable effect of a run, oldest first: an identifier handed
    out by [uuid()], a payload handed to [validateTransfer], a request
    handed to [client.get] or [client.post], a request that reaches the
    adapter, and a request configuration written by [console.log]. *)
Inductive event : Type :=
| Generated (id : string)
| Validated (payload : Js.object)
| Issued (r : Http.request)
| Sent (r : Http.request)
| Logged (r : Http.request).

Definition issued (evs : list event) : list Http.request :=
  omap (fun e => match e with Issued r => Some r | _ => None end) evs.

Definition sent (evs : list event) : list Http.request :=
  omap (fun e => match e with Sent r => Some r | _ => None end) evs.

Definition generated (evs : list event) : list string :=
  omap (fun e => match e with Generated i => Some i | _ => None end) evs.

Definition validated (evs : list event) : list Js.object :=
  omap (fun e => match e with Validated p => Some p | _ => None end) evs.

(** A bearer token and the instant (in seconds) at which it lapses. *)
Record Token : Type := mkToken { value : string; expiresAt : Z }.

(** The world between two operations: the clock, the number of identifiers
    handed out so far, the token that the handle's [TokenRefresher] has
    cached (no authorization call is in flight between two operations that
    run one after the other), and the effects so far. *)
Record world : Type := mkWorld {
  now : Z;
  drawn : nat;
  cache : option Token;
  trace : list event
}.

(** What a run has added to the trace. *)
Definition since (before after : world) : list event :=
  drop (List.length (trace before)) (trace after).

(** The collaborators that are outside this library: the identifier
    generator ([uuid/v4], the n-th identifier it hands out), the payload
    validator and the configuration validators of [validate.ts], the value
    of [Environment.SANDBOX] of [types.ts], the wiring of base URL and
    static headers of the plain transport ([createClient]), the status
    codes that the transport reads as a rejected credential, the safety
    margin of the token cache, and the remote side, which answers a request
    with a status and a body, or not at all, and may take the effects so
    far into account. *)
Record env : Type := mkEnv {
  uuid : nat -> string;
  validateTransfer : Js.object -> option reason;
  validateGlobalConfig : Js.object -> option reason;
  validateProductConfig : Js.object -> option reason;
  validateSubscriptionConfig : Js.object -> option reason;
  SANDBOX : Js.value;
  clientDefaults : Js.object -> option string * Js.object;
  isAuthRejection : Z -> bool;
  margin : Z;
  adapter : list event -> Http.request -> option (Z * Js.value)
}.

Module Promise.

Definition M (A : Type) : Type := world -> outcome A * world.

Definition ret {A} (a : A) : M A := fun w => (Resolved a, w).
Definition reject {A} (e : reason) : M A := fun w => (Rejected e, w).

(** [p.then(f)]: [f] runs only when [p] is fulfilled; a rejection passes
    through untouched. *)
Definition bind {A B} (p : M A) (f : A -> M B) : M B :=
  fun w => match p w with
           | (Resolved a, w') => f a w'
           | (Rejected e, w') => (Rejected e, w')
           end.

(** [p.then(f, g)] restricted to what the transport needs: look at the
    settled promise. *)
Definition settle {A B} (p : M A) (f : outcome A -> M B) : M B :=
  fun w => let (o, w') := p w in f o w'.

Definition emit (e : event) : M unit :=
  fun w => (Resolved tt,
            mkWorld (now w) (drawn w) (cache w) (trace w ++ [e])).

Definition draw (E : env) : M string :=
  fun w => (Resolved (uuid E (drawn w)),
            mkWorld (now w) (S (drawn w)) (cache w)
                    (trace w ++ [Generated (uuid E (drawn w))])).

Definition lift_check (c : option reason) : M unit :=
  match c with
  | None => ret tt
  | Some e => reject e
  end.

End Promise.

Notation "'await' x ':=' p 'in' q" := (Promise.bind p (fun x => q))
  (at level 10, x name, p at level 100, q at level 200).

(** ** The axios instance underneath every handle *)

Module Axios.
Import Promise.

(** [axios.create({ baseURL, headers })]. *)
Record instance : Type := create {
  defaults_baseURL : option string;
  defaults_headers : Js.object
}.

(** The request that reaches the adapter: the instance defaults with the
    headers of the call laid over them. The headers that axios itself
    gives every instance (its default [Accept]) are not modelled. *)
Definition merge (i : instance) (r : Http.request) : Http.request :=
  Http.mkRequest
    (match Http.baseURL r with
     | Some b => Some b
     | None => defaults_baseURL i
     end)
    (Http.verb r) (Http.url r) (Http.data r)
    (Js.spread (defaults_headers i) (Http.headers r)).

(** The default [validateStatus]. *)
Definition validateStatus (s : Z) : bool := ((200 <=? s) && (s <? 300))%Z.

(** One call of the adapter: the request is recorded, then the promise
    settles on the answer. The answer is read as a status and the body as
    the caller gets it in [response.data]: what the response
    transformation of axios makes of a reply is the environment's, see
    [Decode]. *)
Definition dispatch (E : env) (r : Http.request) : M Http.response :=
  fun w =>
    let w' := mkWorld (now w) (drawn w) (cache w) (trace w ++ [Sent r]) in
    match adapter E (trace w) r with
    | None => (Rejected (AxiosError None), w')
    | Some (s, d) =>
        let resp := Http.mkResponse s d r in
        if validateStatus s then (Resolved resp, w')
        else (Rejected (AxiosError (Some resp)), w')
    end.

Definition request (E : env) (i : instance) (r : Http.request)
  : M Http.response :=
  dispatch E (merge i r).

End Axios.

(** ** The token refresher ([auth.ts]) *)

Module TokenRefresher.

(** Modelled from the spec: [auth.ts] ([createTokenRefresher],
    [authorizeCollections], [authorizeDisbursements]) is not among the
    sources. The machine of this module follows sections 3 and 4.2 of the
    specification: the states [Empty], [Cached] and [Refreshing], a safety
    margin on the expiry, callers that join the call in flight, and a
    failed refresh that leaves the machine [Empty]. *)

Inductive state (caller : Type) : Type :=
| Empty
| Cached (t : Token)
| Refreshing (waiting : list caller).
Arguments Empty {caller}.
Arguments Cached {caller} t.
Arguments Refreshing {caller} waiting.

(** What [getToken] does for the caller that has just arrived. *)
Inductive decision : Type :=
| Hit (t : Token)
| Start
| Join.

(** What the scheduler may deliver to the machine: a call of [getToken]
    at some instant, the completion of the authorization call in flight,
    or [invalidate]. *)
Inductive input (caller : Type) : Type :=
| Call (at_ : Z) (c : caller)
| Done (r : outcome Token)
| Invalidate.
Arguments Call {caller} at_ c.
Arguments Done {caller} r.
Arguments Invalidate {caller}.

Section Machine.
Context {caller : Type} (safety : Z).

(** Modelled from the spec: a cached token is usable while its expiry,
    less the safety margin, lies in the future. *)
Definition usable (at_ : Z) (t : Token) : bool :=
  (at_ + safety <? expiresAt t)%Z.

Definition expired (at_ : Z) (s : state caller) : bool :=
  match s with
  | Empty => true
  | Cached t => negb (usable at_ t)
  | Refreshing _ => false
  end.

(** Modelled from the spec: [getToken()] of section 4.2. *)
Definition getToken (at_ : Z) (c : caller) (s : state caller)
  : state caller * decision :=
  match s with
  | Empty => (Refreshing [c], Start)
  | Cached t =>
      if usable at_ t then (s, Hit t) else (Refreshing [c], Start)
  | Refreshing ws => (Refreshing (ws ++ [c]), Join)
  end.

(** Modelled from the spec: the authorization call in flight completes;
    every caller that waits for it is settled with its outcome. *)
Definition complete (r : outcome Token) (s : state caller)
  : state caller * list (caller * outcome Token) :=
  match s with
  | Refreshing ws =>
      (match r with
       | Resolved t => Cached t
       | Rejected _ => Empty
       end,
       map (fun c => (c, r)) ws)
  | _ => (s, [])
  end.

(** Modelled from the spec: [invalidate()] drops a cached token and
    leaves a refresh in flight alone. *)
Definition invalidate (s : state caller) : state caller :=
  match s with
  | Cached _ => Empty
  | _ => s
  end.

(** The machine together with what an observer counts: the calls made
    to the Authorizer and the callers settled so far. *)
Record observed : Type := mkObserved {
  current : state caller;
  authorizations : nat;
  settled : list (caller * outcome Token)
}.

Definition step (o : observed) (i : input caller) : observed :=
  match i with
  | Call at_ c =>
      match getToken at_ c (current o) with
      | (s, Hit t) =>
          mkObserved s (authorizations o)
                     (settled o ++ [(c, Resolved t)])
      | (s, Start) => mkObserved s (S (authorizations o)) (settled o)
      | (s, Join) => mkObserved s (authorizations o) (settled o)
      end
  | Done r =>
      let (s, rs) := complete r (current o) in
      mkObserved s (authorizations o) (settled o ++ rs)
  | Invalidate =>
      mkObserved (invalidate (current o)) (authorizations o) (settled o)
  end.

Definition run (inputs : list (input caller)) (o : observed)
  : observed :=
  fold_left step inputs o.

Definition start (s : state caller) : observed := mkObserved s 0 [].

End Machine.

End TokenRefresher.

(** ** Clients ([client.ts]) and the authorizers ([auth.ts]) *)

Module Client.
Import Promise.

Inductive Authorizer : Type :=
| authorizeCollections
| authorizeDisbursements.

(** [createTokenRefresher(authorize, config)]. *)
Record TokenRefresher : Type := createTokenRefresher {
  authorizer : Authorizer;
  credentials : Js.object
}.

(** An [AxiosInstance] as the factory and the tests build it: a bare
    instance, or an instance wrapped by [createAuthClient]. *)
Inductive AxiosInstance : Type :=
| Plain (i : Axios.instance)
| createAuthClient (refresh : TokenRefresher) (client : AxiosInstance).

Fixpoint refreshers (c : AxiosInstance) : list TokenRefresher :=
  match c with
  | Plain _ => []
  | createAuthClient r c' => r :: refreshers c'
  end.

Section WithEnv.
Context (E : env).

(** Modelled from the spec: [createClient(config)] of [client.ts] is
    not among the sources; the plain transport is an axios instance
    whose base URL and static headers come from the configuration, by a
    wiring that the specification leaves to the transport. *)
Definition plainInstance (config : Js.object) : Axios.instance :=
  Axios.create (fst (clientDefaults E config))
               (snd (clientDefaults E config)).

Definition createClient (config : Js.object) : AxiosInstance :=
  Plain (plainInstance config).

(** Modelled from the spec: the token endpoint of each product, with
    the paths that [tests/mock.ts] answers. *)
Definition tokenPath (a : Authorizer) : string :=
  match a with
  | authorizeCollections => "/collection/token/"
  | authorizeDisbursements => "/disbursement/token/"
  end.

Definition tokenRequest (a : Authorizer) : Http.request :=
  Http.mkRequest None Http.POST (tokenPath a) None ∅.

(** Modelled from the spec: the body of the token endpoint, a token string
    and a lifetime in seconds, with the member names that the mock of
    [tests/mock.ts] answers; the expiry is the clock plus the lifetime. *)
Definition decodeToken (at_ : Z) (v : Js.value) : option Token :=
  match v with
  | Js.Obj o =>
      match Js.get o "access_token", Js.get o "expires_in" with
      | Js.Str t, Js.Num n => Some (mkToken t (at_ + n))
      | _, _ => None
      end
  | _ => None
  end.

(** Modelled from the spec: [authorize(credentials, config)] of section
    4.1: one call to the token endpoint over the plain transport, the
    expiry computed from the clock, an [AuthenticationFailure] on a
    status that is not a success or a body that does not decode. *)
Definition authorize (r : TokenRefresher) : M Token :=
  settle
    (Axios.request E (plainInstance (credentials r))
                   (tokenRequest (authorizer r)))
    (fun o w =>
       match o with
       | Resolved resp =>
           match decodeToken (now w) (Http.body resp) with
           | Some t => (Resolved t, w)
           | None => (Rejected (AuthenticationFailure (Some resp)), w)
           end
       | Rejected (AxiosError resp) =>
           (Rejected (AuthenticationFailure resp), w)
       | Rejected e => (Rejected e, w)
       end).

Definition of_cache (c : option Token) : TokenRefresher.state unit :=
  match c with
  | None => TokenRefresher.Empty
  | Some t => TokenRefresher.Cached t
  end.

Definition to_cache (s : TokenRefresher.state unit) : option Token :=
  match s with
  | TokenRefresher.Cached t => Some t
  | _ => None
  end.

(** Modelled from the spec: [getToken()] of section 4.2 when nothing else
    runs until the authorization call has completed: the machine takes the
    call, and on [Start] the authorization call is made and its completion
    delivered at once. *)
Definition getToken (r : TokenRefresher) : M Token :=
  fun w =>
    match TokenRefresher.getToken (margin E) (now w) tt
                                  (of_cache (cache w)) with
    | (_, TokenRefresher.Hit t) => (Resolved t, w)
    | (s, _) =>
        let (o, w') := authorize r w in
        let (s', _) := TokenRefresher.complete o s in
        (o, mkWorld (now w') (drawn w') (to_cache s') (trace w'))
    end.

(** Modelled from the spec: [invalidate()] on the cache of the world. *)
Definition invalidate : M unit :=
  fun w =>
    (Resolved tt,
     mkWorld (now w) (drawn w)
             (to_cache (TokenRefresher.invalidate (of_cache (cache w))))
             (trace w)).

(** Modelled from the spec: the bearer credential, as the header
    [Authorization: Bearer <token>]. *)
Definition bearer (t : Token) : Js.value := Js.Str ("Bearer " ++ value t).

Definition attach (t : Token) (r : Http.request) : Http.request :=
  Http.mkRequest (Http.baseURL r) (Http.verb r) (Http.url r)
                 (Http.data r)
                 (<["Authorization" := bearer t]> (Http.headers r)).

(** Modelled from the spec: a response that rejects the credential, and
    what a second such response becomes for the caller. *)
Definition rejectedCredential (o : outcome Http.response) : bool :=
  match o with
  | Rejected (AxiosError (Some resp)) =>
      isAuthRejection E (Http.status resp)
  | _ => false
  end.

Definition terminal (o : outcome Http.response)
  : outcome Http.response :=
  match o with
  | Rejected (AxiosError resp) =>
      if rejectedCredential o then Rejected (AuthenticationFailure resp)
      else o
  | _ => o
  end.

(** Modelled from the spec: [createAuthClient] of [client.ts] is not
    among the sources; this is the [request] of section 4.3. A token is
    obtained and attached before the request goes out; a response that
    rejects the credential invalidates the cache and the request is
    sent once more with a new token; a second rejection is final. *)
Fixpoint request (c : AxiosInstance) (r : Http.request)
  : M Http.response :=
  match c with
  | Plain i => Axios.request E i r
  | createAuthClient refresh inner =>
      await t := getToken refresh in
      settle (request inner (attach t r))
        (fun o =>
           if rejectedCredential o then
             await _ := invalidate in
             await t' := getToken refresh in
             settle (request inner (attach t' r))
                    (fun o' w => (terminal o', w))
           else fun w => (o, w))
  end.

(** [client.get(url)] and [client.post(url, data, { headers })]. *)
Definition call (c : AxiosInstance) (r : Http.request)
  : M Http.response :=
  await _ := emit (Issued r) in
  request c r.

Definition get (c : AxiosInstance) (url : string) : M Http.response :=
  call c (Http.mkRequest None Http.GET url None ∅).

Definition post (c : AxiosInstance) (url : string) (data : Js.object)
           (headers : Js.object) : M Http.response :=
  call c (Http.mkRequest None Http.POST url (Some data) headers).

End WithEnv.

End Client.

(** ** [src/disbursements.ts] *)

Module Disbursements.
Import Promise.

(** Modelled from the spec: the enumeration [PartyIdType] of [types.ts]
    is not among the sources; its members are the three that the mock of
    [tests/mock.ts] accepts in an account-holder path. *)
Inductive PartyIdType : Type := MSISDN | EMAIL | PARTY_CODE.

Definition PartyIdType_value (t : PartyIdType) : string :=
  match t with
  | MSISDN => "MSISDN"
  | EMAIL => "EMAIL"
  | PARTY_CODE => "PARTY_CODE"
  end.

(** [new Disbursements(client)]. *)
Record t : Type := new { client : Client.AxiosInstance }.

Section WithEnv.
Context (E : env).

(** [validateTransfer(payload)]: the call is recorded, and the promise
    it returns is rejected when the payload fails the check. *)
Definition validate (payload : Js.object) : M unit :=
  await _ := emit (Validated payload) in
  lift_check (validateTransfer E payload).

Definition transferHeaders (referenceId : string)
           (callbackUrl : Js.value) : Js.object :=
  Js.spread {[ "X-Reference-Id" := Js.Str referenceId ]}
            (if Js.truthy callbackUrl
             then {[ "X-Callback-Url" := callbackUrl ]}
             else ∅).

Definition transfer (this : t) (request : Js.object) : M string :=
  let callbackUrl := Js.get request "callbackUrl" in
  let payoutRequest := Js.rest "callbackUrl" request in
  await _ := validate payoutRequest in
  await referenceId := draw E in
  await response :=
    Client.post E (client this) "/disbursement/v1_0/transfer"
                payoutRequest (transferHeaders referenceId callbackUrl) in
  await _ := emit (Logged (Http.config response)) in
  ret referenceId.

Definition getTransaction (this : t) (referenceId : string)
  : M Js.value :=
  await response :=
    Client.get E (client this)
               ("/disbursement/v1_0/transfer/" ++ referenceId) in
  ret (Http.body response).

Definition getBalance (this : t) : M Js.value :=
  await response :=
    Client.get E (client this) "/disbursement/v1_0/account/balance" in
  ret (Http.body response).

Definition isPayerActive (this : t) (id : string)
           (type : option PartyIdType) : M Js.value :=
  let type := default MSISDN type in
  await response :=
    Client.get E (client this)
               ("/disbursement/v1_0/accountholder/"
                  ++ PartyIdType_value type ++ "/" ++ id ++ "/active") in
  ret (Http.body response).

End WithEnv.

End Disbursements.

(** ** The factory (the module that exports the [MomoClient] creator) *)

Module Factory.

(** [new Collections(client)] and [new Users(client)]: the classes of
    [collections.ts] and [users.ts] hold the client they are given. *)
Record Collections_t : Type :=
  new_Collections { collections_client : Client.AxiosInstance }.
Record Users_t : Type := new_Users { users_client : Client.AxiosInstance }.

Record MomoClient : Type := mkMomoClient {
  Collections : Js.object -> outcome Collections_t;
  Disbursements : Js.object -> outcome Disbursements.t;
  Users : Js.object -> outcome Users_t
}.

Section WithEnv.
Context (E : env).

Definition defaultGlobalConfig : Js.object :=
  {[ "baseUrl" := Js.Str "https://ericssonbasicapi2.azure-api.net";
     "environment" := SANDBOX E ]}.

(** [{ ...defaultGlobalConfig, ...globalConfig, ...last }]. *)
Definition layered (globalConfig last : Js.object) : Js.object :=
  Js.spread (Js.spread defaultGlobalConfig globalConfig) last.

Definition create (globalConfig : Js.object) : outcome MomoClient :=
  match validateGlobalConfig E globalConfig with
  | Some e => Rejected e
  | None =>
      Resolved
        {| Collections := fun productConfig =>
             match validateProductConfig E productConfig with
             | Some e => Rejected e
             | None =>
                 let config := layered globalConfig productConfig in
                 let client :=
                   Client.createAuthClient
                     (Client.createTokenRefresher
                        Client.authorizeCollections config)
                     (Client.createClient E config) in
                 Resolved (new_Collections client)
             end;
           Disbursements := fun productConfig =>
             let config := layered globalConfig productConfig in
             let client :=
               Client.createAuthClient
                 (Client.createTokenRefresher
                    Client.authorizeDisbursements config)
                 (Client.createClient E config) in
             Resolved (Disbursements.new client);
           Users := fun subscriptionConfig =>
             match validateSubscriptionConfig E subscriptionConfig with
             | Some e => Rejected e
             | None =>
                 let config := layered globalConfig subscriptionConfig in
                 let client := Client.createClient E config in
                 Resolved (new_Users client)
             end |}
  end.

(** [momo(globalConfig).Collections(productConfig)] and its siblings
    as one expression: the creator runs, then one member of the
    [MomoClient] it returns. *)
Definition construct {A : Type} (globalConfig : Js.object)
           (member : MomoClient -> outcome A) : outcome A :=
  match create globalConfig with
  | Resolved momo => member momo
  | Rejected e => Rejected e
  end.

End WithEnv.

End Factory.

(** ** The axios mock of [tests/mock.ts] *)

Module Regex.

(** The fragment of JavaScript regular expressions that the mock uses:
    literals, character classes, alternation and repetition. *)
Inductive regex : Type :=
| Fail
| Eps
| Class (p : ascii -> bool)
| Seq (r1 r2 : regex)
| Alt (r1 r2 : regex)
| Star (r : regex).

Fixpoint Lit (s : string) : regex :=
  match s with
  | EmptyString => Eps
  | String c s' => Seq (Class (Ascii.eqb c)) (Lit s')
  end.

Definition Plus (r : regex) : regex := Seq r (Star r).

Definition between (lo hi c : ascii) : bool :=
  ((nat_of_ascii lo <=? nat_of_ascii c)
     && (nat_of_ascii c <=? nat_of_ascii hi))%nat.

(** [\w]. *)
Definition word (c : ascii) : bool :=
  between "a" "z" c || between "A" "Z" c || between "0" "9" c
  || Ascii.eqb c "_".

(** [[\w\-]]. *)
Definition word_or_dash (c : ascii) : bool := word c || Ascii.eqb c "-".

Fixpoint nullable (r : regex) : bool :=
  match r with
  | Fail => false
  | Eps => true
  | Class _ => false
  | Seq r1 r2 => nullable r1 && nullable r2
  | Alt r1 r2 => nullable r1 || nullable r2
  | Star _ => true
  end.

Fixpoint deriv (c : ascii) (r : regex) : regex :=
  match r with
  | Fail | Eps => Fail
  | Class p => if p c then Eps else Fail
  | Seq r1 r2 =>
      if nullable r1 then Alt (Seq (deriv c r1) r2) (deriv c r2)
      else Seq (deriv c r1) r2
  | Alt r1 r2 => Alt (deriv c r1) (deriv c r2)
  | Star r' => Seq (deriv c r') (Star r')
  end.

(** Some prefix of [s] matches [r]. *)
Fixpoint prefix (r : regex) (s : string) : bool :=
  nullable r ||
  match s with
  | EmptyString => false
  | String c s' => prefix (deriv c r) s'
  end.

(** [r.test(s)] for a pattern without anchors: a match may start
    anywhere. *)
Fixpoint test (r : regex) (s : string) : bool :=
  prefix r s ||
  match s with
  | EmptyString => false
  | String _ s' => test r s'
  end.

End Regex.

Module Mock.
Import Regex.

Inductive matcher : Type :=
| Exactly (url : string)
| Pattern (r : regex).

Record handler : Type := mkHandler {
  on_verb : Http.method;
  on_url : matcher;
  reply_status : Z;
  reply_data : Js.value
}.

Definition onGet (m : matcher) (s : Z) (d : Js.value) : handler :=
  mkHandler Http.GET m s d.
Definition onPost (m : matcher) (s : Z) (d : Js.value) : handler :=
  mkHandler Http.POST m s d.

Definition same_verb (a b : Http.method) : bool :=
  match a, b with
  | Http.GET, Http.GET | Http.POST, Http.POST => true
  | _, _ => false
  end.

Definition matches (h : handler) (r : Http.request) : bool :=
  same_verb (on_verb h) (Http.verb r) &&
  match on_url h with
  | Exactly u => String.eqb (Http.url r) u
  | Pattern p => test p (Http.url r)
  end.

(** [(MSISDN|EMAIL|PARTY_CODE)]. *)
Definition partyIdType : regex :=
  Alt (Lit "MSISDN") (Alt (Lit "EMAIL") (Lit "PARTY_CODE")).

Definition accessToken : Js.value :=
  Js.Obj {[ "access_token" := Js.Str "token";
            "token_type" := Js.Str "access_token";
            "expires_in" := Js.Num 3600 ]}.

Definition party : Js.value :=
  Js.Obj {[ "partyIdType" := Js.Str "MSISDN";
            "partyId" := Js.Str "256772000000" ]}.

Definition accountBalance : Js.value :=
  Js.Obj {[ "availableBalance" := Js.Str "2000";
            "currency" := Js.Str "UGX" ]}.

Definition collection : Js.value :=
  Js.Obj {[ "financialTransactionId" := Js.Str "tx id";
            "externalId" := Js.Str "string";
            "amount" := Js.Str "2000";
            "currency" := Js.Str "UGX";
            "payer" := party;
            "payerMessage" := Js.Str "test";
            "payeeNote" := Js.Str "test";
            "status" := Js.Str "SUCCESSFUL" ]}.

Definition transfer : Js.value :=
  Js.Obj {[ "financialTransactionId" := Js.Str "tx id";
            "externalId" := Js.Str "string";
            "amount" := Js.Str "2000";
            "currency" := Js.Str "UGX";
            "payee" := party;
            "status" := Js.Str "SUCCESSFUL" ]}.

(** The handlers in the order in which [createMock] registers them. *)
Definition handlers : list handler :=
  [ onGet (Exactly "/test") 200 Js.Undefined;
    onPost (Exactly "/v1_0/apiuser") 201 Js.Undefined;
    onPost (Pattern (Seq (Lit "/v1_0/apiuser/")
                         (Seq (Plus (Class word_or_dash)) (Lit "/apikey"))))
           200 (Js.Obj {[ "apiKey" := Js.Str "api-key" ]});
    onPost (Exactly "/collection/token/") 200 accessToken;
    onGet (Pattern (Seq (Lit "/collection/v1_0/accountholder/")
                        (Seq partyIdType
                             (Seq (Lit "/") (Plus (Class word))))))
          200 (Js.Str "true");
    onPost (Exactly "/collection/v1_0/requesttopay") 201 Js.Undefined;
    onGet (Pattern (Seq (Lit "/collection/v1_0/requesttopay/")
                        (Plus (Class word_or_dash))))
          200 collection;
    onGet (Exactly "/collection/v1_0/account/balance") 200 accountBalance;
    onPost (Exactly "/disbursement/token/") 200 accessToken;
    onGet (Pattern (Seq (Lit "/disbursement/v1_0/accountholder/")
                        (Seq partyIdType
                             (Seq (Lit "/") (Plus (Class word))))))
          200 (Js.Str "true");
    onPost (Exactly "/disbursement/v1_0/transfer") 201 Js.Undefined;
    onGet (Pattern (Seq (Lit "/disbursement/v1_0/transfer/")
                        (Plus (Class word_or_dash))))
          200 transfer;
    onGet (Exactly "/disbursement/v1_0/account/balance") 200
          accountBalance ].

(** The mock adapter: the first handler that matches answers; a request
    that no handler matches is answered with 404. *)
Definition mock (past : list event) (r : Http.request)
  : option (Z * Js.value) :=
  match List.find (fun h => matches h r) handlers with
  | Some h => Some (reply_status h, reply_data h)
  | None => Some (404%Z, Js.Undefined)
  end.

Definition createMock
  : Client.AxiosInstance
    * (list event -> Http.request -> option (Z * Js.value)) :=
  (Client.Plain
     (Axios.create None {[ "Content-Type" := Js.Str "application/json" ]}),
   mock).

End Mock.

(** ** The environment of the scenarios of the test suite *)

Module Scenario.

Definition required (keys : list string) (why : string -> reason)
           (o : Js.object) : option reason :=
  match List.find (fun k => negb (Js.truthy (Js.get o k))) keys with
  | Some k => Some (why (k ++ " is required"))
  | None => None
  end.

(** Modelled from the spec: [validate.ts] is not among the sources. The
    checks below stand for it in the scenarios: a payload or a
    configuration is refused when one of its required members is
    missing. *)
Definition validateTransfer : Js.object -> option reason :=
  required ["amount"; "currency"; "payee"] ValidationError.

Definition validateGlobalConfig (o : Js.object) : option reason :=
  match o !! "callbackHost" with
  | Some v => if Js.truthy v then None
              else Some (ConfigurationError "callbackHost is required")
  | None => None
  end.

Definition validateProductConfig : Js.object -> option reason :=
  required ["primaryKey"; "userId"; "userSecret"] ConfigurationError.

Definition validateSubscriptionConfig : Js.object -> option reason :=
  required ["primaryKey"] ConfigurationError.

Definition uuid (n : nat) : string :=
  match n with
  | 0 => "0b7e3f3c-6a1d-4c55-9d0e-3c1f6f5b2a10"
  | 1 => "5d2c9a44-1f0b-4e6a-8b7c-90a1d4e3f2b6"
  | _ => "c9a8b7d6-e5f4-4a3b-9c2d-1e0f9a8b7c6d"
  end.

Definition clientDefaults (config : Js.object) : option string * Js.object :=
  (match Js.get config "baseUrl" with
   | Js.Str b => Some b
   | _ => None
   end,
   {[ "Ocp-Apim-Subscription-Key" := Js.get config "primaryKey";
      "X-Target-Environment" := Js.get config "environment" ]}).

Definition env : env :=
  mkEnv uuid validateTransfer validateGlobalConfig validateProductConfig
        validateSubscriptionConfig (Js.Str "sandbox") clientDefaults
        (fun s => (s =? 401)%Z) 60 (snd Mock.createMock).

Definition world0 : world := mkWorld 0 0 None [].

(** The payout of the transfer scenario. *)
Definition payout : Js.object :=
  {[ "amount" := Js.Str "2000";
     "currency" := Js.Str "UGX";
     "payee" := Mock.party ]}.

Definition mockClient : Disbursements.t :=
  Disbursements.new (fst Mock.createMock).

Definition productConfig : Js.object :=
  {[ "primaryKey" := Js.Str "key";
     "userId" := Js.Str "user";
     "userSecret" := Js.Str "secret" ]}.

(** [momo({}).Disbursements(productConfig)]. *)
Definition handle : Disbursements.t :=
  Disbursements.new
    (Client.createAuthClient
       (Client.createTokenRefresher Client.authorizeDisbursements
          (Factory.layered env ∅ productConfig))
       (Client.createClient env (Factory.layered env ∅ productConfig))).

End Scenario.

(** ** What the adapter sees *)

Module Wire.

Section WithEnv.
Context (E : env).

(** A call to a token endpoint, as some refresher makes it. *)
Definition tokenCall (wire : Http.request) : Prop :=
  exists r : Client.TokenRefresher,
    wire = Axios.merge (Client.plainInstance E (Client.credentials r))
                       (Client.tokenRequest (Client.authorizer r)).

(** The request carries a bearer credential. *)
Definition credentialed (wire : Http.request) : Prop :=
  exists t : Token,
    Http.headers wire !! "Authorization" = Some (Client.bearer t).

(** [wire] is the request [r] of a façade on its way out: same method,
    path and body, and every header of [r], except that a transport
    may have put a bearer credential in place of [Authorization]. *)
Definition business (r wire : Http.request) : Prop :=
  Http.verb wire = Http.verb r
  /\ Http.url wire = Http.url r
  /\ Http.data wire = Http.data r
  /\ forall k, is_Some (Http.headers r !! k) ->
               Http.headers wire !! k = Http.headers r !! k
               \/ (k = "Authorization" /\ credentialed wire).

(** [w'] is [w] after some requests, all within [P], have reached the
    adapter: the clock and the identifier supply are as they were. *)
Definition extends (P : Http.request -> Prop) (w w' : world) : Prop :=
  now w' = now w /\ drawn w' = drawn w
  /\ exists rs, trace w' = (trace w ++ map Sent rs)%list /\ Forall P rs.

(** What may reach the adapter when the façade hands [r] to the
    client [c]: calls to a token endpoint, and [r] itself, with a
    bearer credential when [c] was built by [createAuthClient]. *)
Definition outgoing (c : Client.AxiosInstance) (r wire : Http.request)
  : Prop :=
  tokenCall wire
  \/ (business r wire
      /\ (Client.refreshers c <> [] -> credentialed wire)).

End WithEnv.

End Wire.

(** ** Support for the properties of the mock and of the façade *)

(** What [console.log] has written. *)
Definition logged (evs : list event) : list Http.request :=
  omap (fun e => match e with Logged r => Some r | _ => None end) evs.

Module Scan.
Import Regex.

(** The whole of [s] matches [r]. *)
Fixpoint accepts (r : regex) (s : string) : bool :=
  match s with
  | EmptyString => nullable r
  | String c s' => accepts (deriv c r) s'
  end.

(** Every character of [s] satisfies [p]. *)
Fixpoint all (p : ascii -> bool) (s : string) : bool :=
  match s with
  | EmptyString => true
  | String c s' => p c && all p s'
  end.

(** How often [c] occurs in [s]. *)
Fixpoint occurrences (c : ascii) (s : string) : nat :=
  match s with
  | EmptyString => 0
  | String c' s' => (if Ascii.eqb c' c then 1 else 0) + occurrences c s'
  end.

Definition all_ascii : list ascii := map ascii_of_nat (seq 0 256).

(** A lower bound on the number of occurrences of [c] in a string of which
    [r] matches a prefix. [Fail] matches nothing, so any bound holds for
    it. *)
Fixpoint demand (c : ascii) (r : regex) : nat :=
  match r with
  | Fail => 64
  | Eps => 0
  | Class p =>
      if forallb (fun a => implb (p a) (Ascii.eqb a c)) all_ascii
      then 1 else 0
  | Seq r1 r2 => demand c r1 + demand c r2
  | Alt r1 r2 => Nat.min (demand c r1) (demand c r2)
  | Star _ => 0
  end.

(** [r.test] on a string of which a part has been read already: [rs] are
    what is left of [r] for the matches begun in that part. *)
Definition test_from (rs : list regex) (r : regex) (s : string) : bool :=
  existsb (fun r' => prefix r' s) rs || test r s.

(** Reading [p]: whether a match is complete within [p], and what is left
    of the matches begun in it. *)
Fixpoint scan (r : regex) (rs : list regex) (p : string)
  : bool * list regex :=
  match p with
  | EmptyString => (false, rs)
  | String c p' =>
      let (hit, rs') := scan r (map (deriv c) (r :: rs)) p' in
      (existsb nullable rs || nullable r || hit, rs')
  end.

End Scan.

(** An environment in which the remote side never answers. *)
Module Outage.

Definition env : env :=
  mkEnv Scenario.uuid Scenario.validateTransfer
        Scenario.validateGlobalConfig Scenario.validateProductConfig
        Scenario.validateSubscriptionConfig (Js.Str "sandbox")
        Scenario.clientDefaults (fun s => (s =? 401)%Z) 60
        (fun _ _ => None).

End Outage.

(** ** The response transformation of axios *)

Module Decode.

(** The default [transformResponse] of axios: a reply that is a string is
    replaced by what [JSON.parse] makes of it when it parses and is left
    as it is when it does not; any other reply is left as it is.
    [JSON.parse] is the built-in of JavaScript, taken as [parse]. *)
Definition transformResponse (parse : string -> option Js.value)
           (d : Js.value) : Js.value :=
  match d with
  | Js.Str s => default d (parse s)
  | _ => d
  end.

(** An adapter as the client sees it, behind the response
    transformation: the status as replied, the body decoded. *)
Definition decoded (parse : string -> option Js.value)
           (reply : list event -> Http.request -> option (Z * Js.value))
  : list event -> Http.request -> option (Z * Js.value) :=
  fun past r =>
    match reply past r with
    | Some (s, d) => Some (s, transformResponse parse d)
    | None => None
    end.

(** [JSON.parse] on the three literal names of JSON, which are all that
    the scenarios need: the only strings the mock replies with are
    literal names. *)
Definition literal (s : string) : option Js.value :=
  if String.eqb s "true" then Some (Js.Bool true)
  else if String.eqb s "false" then Some (Js.Bool false)
  else if String.eqb s "null" then Some Js.Null
  else None.

(** The environment of the scenarios with the mock behind the response
    transformation. *)
Definition env : env :=
  mkEnv Scenario.uuid Scenario.validateTransfer
        Scenario.validateGlobalConfig Scenario.validateProductConfig
        Scenario.validateSubscriptionConfig (Js.Str "sandbox")
        Scenario.clientDefaults (fun s => (s =? 401)%Z) 60
        (decoded literal Mock.mock).

End Decode.

(** * Properties *)

(** ** The token refresher *)

Section SingleFlight.
Import TokenRefresher.
Context {caller : Type} (safety : Z).

Lemma run_app (xs ys : list (input caller)) (o : observed) :
  run safety (xs ++ ys) o = run safety ys (run safety xs o).
Proof. unfold run. apply fold_left_app. Qed.

(** Callers that arrive while a refresh is in flight queue up behind it:
    no authorization call is made and nobody is settled. *)
Lemma run_joins (cs : list (Z * caller)) :
  forall ws n done,
    run safety (map (fun c => Call c.1 c.2) cs)
        (mkObserved (Refreshing ws) n done)
    = mkObserved (Refreshing (ws ++ map snd cs)) n done.
Proof.
  induction cs as [|[at_ c] cs IH]; intros ws n done; simpl.
  - by rewrite app_nil_r.
  - rewrite IH. by rewrite <- app_assoc.
Qed.

Lemma first_call_starts (at_ : Z) (c : caller) (s : state caller) :
  expired safety at_ s = true ->
  step safety (start s) (Call at_ c) = mkObserved (Refreshing [c]) 1 [].
Proof.
  destruct s as [|t|ws]; simpl; try done.
  unfold step, getToken; simpl.
  destruct (usable safety at_ t); simpl; [discriminate | done].
Qed.

(** C1. Single-flight: when N >= 2 calls of [getToken] (a first, a
    second and any number of others) arrive at a refresher whose cache is
    empty or expired, all before the authorization call completes,
    exactly one authorization call is made, and every one of the N
    callers is settled with the outcome of that call: the same token for
    all, or the same failure for all. *)
Theorem single_flight (s : state caller) (first second : Z * caller)
        (others : list (Z * caller)) (r : outcome Token) :
  expired safety first.1 s = true ->
  let calls := first :: second :: others in
  let final :=
    run safety (map (fun c => Call c.1 c.2) calls ++ [Done r]) (start s) in
  authorizations final = 1%nat
  /\ settled final = map (fun c => (c.2, r)) calls
  /\ current final = match r with
                     | Resolved t => Cached t
                     | Rejected _ => Empty
                     end.
Proof.
  intros Hexp calls final. subst final calls.
  rewrite run_app. destruct first as [at_ c]. simpl map.
  change (run safety (Call at_ c :: ?l) ?o)
    with (run safety l (step safety o (Call at_ c))).
  rewrite (first_call_starts at_ c s Hexp).
  change (Call second.1 second.2 :: map ?f others)
    with (map f (second :: others)).
  rewrite run_joins.
  simpl. rewrite map_map. simpl. auto.
Qed.

End SingleFlight.

Lemma single_flight_witness :
  let calls := [(100%Z, 1%nat); (101%Z, 2%nat); (102%Z, 3%nat)] in
  let final :=
    TokenRefresher.run 60
      (map (fun c : Z * nat => TokenRefresher.Call c.1 c.2) calls
         ++ [TokenRefresher.Done (Resolved (mkToken "token" 3700))])
      (TokenRefresher.start (TokenRefresher.Cached (mkToken "old" 150))) in
  TokenRefresher.authorizations final = 1%nat
  /\ TokenRefresher.settled final
     = map (fun c : Z * nat => (c.2, Resolved (mkToken "token" 3700))) calls
  /\ TokenRefresher.current final
     = TokenRefresher.Cached (mkToken "token" 3700).
Proof.
  apply (single_flight 60 (TokenRefresher.Cached (mkToken "old" 150))
                       (100%Z, 1%nat) (101%Z, 2%nat) [(102%Z, 3%nat)]
                       (Resolved (mkToken "token" 3700))).
  reflexivity.
Defined.

(** ** The transport *)

Section Transport.
Context (E : env).
Import Wire.

Lemma since_app (w w' : world) (evs : list event) :
  trace w' = (trace w ++ evs)%list -> since w w' = evs.
Proof. intros H. unfold since. rewrite H. apply drop_app_length. Qed.

Lemma sent_map_Sent (rs : list Http.request) : sent (map Sent rs) = rs.
Proof. induction rs as [|r rs IH]; simpl; [done | by rewrite IH]. Qed.

Lemma issued_map_Sent (rs : list Http.request) : issued (map Sent rs) = [].
Proof. induction rs as [|r rs IH]; simpl; done. Qed.

Lemma generated_map_Sent (rs : list Http.request) :
  generated (map Sent rs) = [].
Proof. induction rs as [|r rs IH]; simpl; done. Qed.

Lemma validated_map_Sent (rs : list Http.request) :
  validated (map Sent rs) = [].
Proof. induction rs as [|r rs IH]; simpl; done. Qed.

Lemma extends_refl (P : Http.request -> Prop) (w : world) : extends P w w.
Proof.
  repeat split. exists []. simpl. by rewrite app_nil_r.
Qed.

Lemma extends_trans (P : Http.request -> Prop) (w1 w2 w3 : world) :
  extends P w1 w2 -> extends P w2 w3 -> extends P w1 w3.
Proof.
  intros (Hn1 & Hd1 & rs1 & Ht1 & HP1) (Hn2 & Hd2 & rs2 & Ht2 & HP2).
  repeat split; [congruence | congruence |].
  exists (rs1 ++ rs2)%list. split.
  - rewrite Ht2, Ht1, map_app. by rewrite <- app_assoc.
  - by apply Forall_app.
Qed.

Lemma extends_weaken (P Q : Http.request -> Prop) (w w' : world) :
  (forall r, P r -> Q r) -> extends P w w' -> extends Q w w'.
Proof.
  intros HPQ (Hn & Hd & rs & Ht & HP). repeat split; try done.
  exists rs. split; [done |]. eapply Forall_impl; eauto.
Qed.

(** Changing the cached token leaves the rest of the world alone. *)
Lemma extends_cache (P : Http.request -> Prop) (w w' : world)
      (c : option Token) :
  extends P w w' ->
  extends P w (mkWorld (now w') (drawn w') c (trace w')).
Proof. intros (Hn & Hd & rs & Ht & HP). repeat split; eauto. Qed.

Lemma dispatch_run (r : Http.request) (w : world) :
  snd (Axios.dispatch E r w)
  = mkWorld (now w) (drawn w) (cache w) (trace w ++ [Sent r]).
Proof.
  unfold Axios.dispatch.
  destruct (adapter E (trace w) r) as [[s d]|]; [|done].
  by destruct (Axios.validateStatus s).
Qed.

Lemma dispatch_extends (P : Http.request -> Prop) (r : Http.request)
      (w : world) :
  P r -> extends P w (snd (Axios.dispatch E r w)).
Proof.
  intros HP. rewrite dispatch_run. repeat split.
  exists [r]. split; [done | by constructor].
Qed.

Lemma authorize_extends (r : Client.TokenRefresher) (w : world) :
  extends (tokenCall E) w (snd (Client.authorize E r w)).
Proof.
  unfold Client.authorize, Promise.settle, Axios.request.
  pose proof (dispatch_extends (tokenCall E)
    (Axios.merge (Client.plainInstance E (Client.credentials r))
                 (Client.tokenRequest (Client.authorizer r))) w) as H.
  destruct (Axios.dispatch E _ w) as [o w'] eqn:Hd. simpl in H.
  assert (extends (tokenCall E) w w') as Hext by (apply H; by exists r).
  destruct o as [resp|[]]; simpl; try done.
  by destruct (Client.decodeToken (now w') (Http.body resp)).
Qed.

Lemma getToken_extends (r : Client.TokenRefresher) (w : world) :
  extends (tokenCall E) w (snd (Client.getToken E r w)).
Proof.
  unfold Client.getToken.
  destruct (TokenRefresher.getToken (margin E) (now w) tt
              (Client.of_cache (cache w))) as [s d] eqn:Hg.
  pose proof (authorize_extends r w) as Ha.
  destruct (Client.authorize E r w) as [o w'].
  assert (extends (tokenCall E) w
            (let (s', _) := TokenRefresher.complete o s in
             mkWorld (now w') (drawn w') (Client.to_cache s') (trace w')))
    as Hrefresh.
  { destruct (TokenRefresher.complete o s) as [s' l].
    by apply extends_cache. }
  destruct d; simpl.
  - apply extends_refl.
  - by destruct (TokenRefresher.complete o s).
  - by destruct (TokenRefresher.complete o s).
Qed.

Lemma invalidate_extends (P : Http.request -> Prop) (w : world) :
  extends P w (snd (Client.invalidate w)).
Proof. simpl. apply extends_cache, extends_refl. Qed.

Lemma business_merge (i : Axios.instance) (r : Http.request) :
  business r (Axios.merge i r).
Proof.
  repeat split. intros k [v Hv]. left. simpl. unfold Js.spread.
  rewrite Hv. by apply lookup_union_Some_l.
Qed.

(** What goes out for [attach t r] goes out for [r], and carries a
    bearer credential. *)
Lemma business_attach (t : Token) (r wire : Http.request) :
  business (Client.attach t r) wire ->
  business r wire /\ credentialed wire.
Proof.
  intros (Hv & Hu & Hd & Hh). simpl in *.
  assert (credentialed wire) as Hc.
  { destruct (Hh "Authorization") as [H|[_ H]]; [| |done].
    - rewrite lookup_insert_eq. by eexists.
    - rewrite lookup_insert_eq in H. by exists t. }
  split; [|done]. repeat split; try done.
  intros k Hk. destruct (decide (k = "Authorization")) as [->|Hne].
  - by right.
  - destruct (Hh k) as [H|[? _]]; [| |done].
    + by rewrite lookup_insert_ne.
    + left. by rewrite lookup_insert_ne in H.
Qed.

Lemma outgoing_attach (refresh : Client.TokenRefresher)
      (inner : Client.AxiosInstance) (t : Token) (r wire : Http.request) :
  outgoing E inner (Client.attach t r) wire ->
  outgoing E (Client.createAuthClient refresh inner) r wire.
Proof.
  intros [H|[H _]]; [by left | right].
  apply business_attach in H as [Hb Hc]. by split.
Qed.

(** Whatever the client, a request handed to it changes neither the
    clock nor the identifier supply, and adds to the trace only requests
    that reach the adapter: token calls and the request itself. *)
Lemma request_extends (c : Client.AxiosInstance) :
  forall (r : Http.request) (w : world),
    extends (outgoing E c r) w (snd (Client.request E c r w)).
Proof.
  induction c as [i|refresh inner IH]; intros r w.
  - apply dispatch_extends. right. split; [apply business_merge | done].
  - simpl. unfold Promise.bind, Promise.settle.
    assert (forall w1 w2, extends (tokenCall E) w1 w2 ->
              extends (outgoing E (Client.createAuthClient refresh inner) r)
                      w1 w2) as Htok.
    { intros w1 w2. apply extends_weaken. by left. }
    assert (forall t w1,
              extends (outgoing E (Client.createAuthClient refresh inner) r)
                      w1 (snd (Client.request E inner (Client.attach t r) w1)))
      as Hin.
    { intros t w1. eapply extends_weaken; [|apply IH].
      intros wire. apply outgoing_attach. }
    pose proof (getToken_extends refresh w) as H1. apply Htok in H1.
    destruct (Client.getToken E refresh w) as [[t|e] w1]; [|done].
    simpl in H1.
    pose proof (Hin t w1) as H2.
    destruct (Client.request E inner (Client.attach t r) w1) as [o w2].
    simpl in H2.
    pose proof (extends_trans _ _ _ _ H1 H2) as H12.
    destruct (Client.rejectedCredential E o); [|done].
    pose proof (invalidate_extends
                  (outgoing E (Client.createAuthClient refresh inner) r) w2)
      as H3.
    destruct (Client.invalidate w2) as [[[]|e] w3]; simpl in H3;
      pose proof (extends_trans _ _ _ _ H12 H3) as H13; [|done].
    pose proof (getToken_extends refresh w3) as H4. apply Htok in H4.
    destruct (Client.getToken E refresh w3) as [[t'|e] w4]; simpl in H4;
      pose proof (extends_trans _ _ _ _ H13 H4) as H14; [|done].
    pose proof (Hin t' w4) as H5.
    destruct (Client.request E inner (Client.attach t' r) w4) as [o' w5].
    simpl in *. by eapply extends_trans.
Qed.

End Transport.

(** ** The Disbursements façade *)

Section Facade.
Context (E : env).
Import Wire.

Lemma call_run (c : Client.AxiosInstance) (r : Http.request) (w : world) :
  Client.call E c r w
  = Client.request E c r
      (mkWorld (now w) (drawn w) (cache w) (trace w ++ [Issued r])).
Proof. reflexivity. Qed.

(** A call of [client.get] or [client.post]: the request is issued once,
    and what reaches the adapter is within [outgoing]. *)
Lemma call_extends (c : Client.AxiosInstance) (r : Http.request)
      (w : world) :
  now (Client.call E c r w).2 = now w
  /\ drawn (Client.call E c r w).2 = drawn w
  /\ exists rs,
      trace (Client.call E c r w).2
      = (trace w ++ Issued r :: map Sent rs)%list
      /\ Forall (outgoing E c r) rs.
Proof.
  rewrite call_run.
  destruct (request_extends E c r
              (mkWorld (now w) (drawn w) (cache w) (trace w ++ [Issued r])))
    as (Hn & Hd & rs & Ht & HP).
  simpl in *. repeat split; try done.
  exists rs. split; [|done]. rewrite Ht. by rewrite <- app_assoc.
Qed.

Lemma tail_projections (rs logs : list Http.request) :
  issued (map Sent rs ++ map Logged logs) = []
  /\ generated (map Sent rs ++ map Logged logs) = []
  /\ validated (map Sent rs ++ map Logged logs) = []
  /\ sent (map Sent rs ++ map Logged logs) = rs.
Proof.
  assert (issued (map Logged logs) = [] /\ generated (map Logged logs) = []
          /\ validated (map Logged logs) = [] /\ sent (map Logged logs) = [])
    as (Hi & Hg & Hv & Hs)
    by (induction logs as [|l logs IH]; simpl; done).
  unfold issued, generated, validated, sent in *. rewrite !omap_app.
  rewrite Hi, Hg, Hv, Hs, !app_nil_r.
  repeat split;
    [apply issued_map_Sent | apply generated_map_Sent
     | apply validated_map_Sent | apply sent_map_Sent].
Qed.

Lemma valid_trace_projections (p : Js.object) (id : string)
      (req : Http.request) (rs logs : list Http.request) :
  let evs :=
    (Validated p :: Generated id :: Issued req
       :: map Sent rs ++ map Logged logs)%list in
  validated evs = [p] /\ generated evs = [id]
  /\ issued evs = [req] /\ sent evs = rs.
Proof.
  intros evs. subst evs.
  destruct (tail_projections rs logs) as (Hi & Hg & Hv & Hs).
  change (Validated p :: Generated id :: Issued req
            :: map Sent rs ++ map Logged logs)%list
    with ([Validated p; Generated id; Issued req]
            ++ (map Sent rs ++ map Logged logs))%list.
  set (tail := (map Sent rs ++ map Logged logs)%list) in *.
  unfold issued, generated, validated, sent in *.
  rewrite !omap_app, Hi, Hg, Hv, Hs. done.
Qed.

Lemma transferHeaders_reference (id : string) (cb : Js.value) :
  Disbursements.transferHeaders id cb !! "X-Reference-Id"
  = Some (Js.Str id).
Proof.
  unfold Disbursements.transferHeaders, Js.spread.
  destruct (Js.truthy cb).
  - rewrite lookup_union_r; [by rewrite lookup_singleton_eq|].
    by rewrite lookup_singleton_ne.
  - by rewrite (left_id_L ∅ (∪)), lookup_singleton_eq.
Qed.

Lemma transferHeaders_callback (id : string) (cb : Js.value) :
  Disbursements.transferHeaders id cb !! "X-Callback-Url"
  = if Js.truthy cb then Some cb else None.
Proof.
  unfold Disbursements.transferHeaders, Js.spread.
  destruct (Js.truthy cb).
  - apply lookup_union_Some_l. by rewrite lookup_singleton_eq.
  - rewrite (left_id_L ∅ (∪)). by rewrite lookup_singleton_ne.
Qed.

(** [transfer] on a payload that fails the check: the promise of the
    validator is rejected and nothing else happens. *)
Lemma transfer_invalid (this : Disbursements.t) (request : Js.object)
      (w : world) (e : reason) :
  validateTransfer E (delete "callbackUrl" request) = Some e ->
  Disbursements.transfer E this request w
  = (Rejected e,
     mkWorld (now w) (drawn w) (cache w)
             (trace w ++ [Validated (delete "callbackUrl" request)])).
Proof.
  intros Hv. unfold Disbursements.transfer, Disbursements.validate, Js.rest.
  unfold Promise.bind at 1 2. simpl. by rewrite Hv.
Qed.

Lemma transfer_invalid_since (this : Disbursements.t)
      (request : Js.object) (w : world) (e : reason) :
  validateTransfer E (delete "callbackUrl" request) = Some e ->
  since w (Disbursements.transfer E this request w).2
  = [Validated (delete "callbackUrl" request)].
Proof.
  intros He. rewrite (transfer_invalid _ _ _ _ He). by apply since_app.
Qed.

(** [transfer] on a payload that passes the check, step by step. *)
Lemma transfer_valid (this : Disbursements.t) (request : Js.object)
      (w : world) :
  validateTransfer E (delete "callbackUrl" request) = None ->
  let id := uuid E (drawn w) in
  let req :=
    Http.mkRequest None Http.POST "/disbursement/v1_0/transfer"
      (Some (delete "callbackUrl" request))
      (Disbursements.transferHeaders id (Js.get request "callbackUrl")) in
  let w1 :=
    mkWorld (now w) (S (drawn w)) (cache w)
            (trace w ++ [Validated (delete "callbackUrl" request);
                         Generated id; Issued req]) in
  Disbursements.transfer E this request w
  = match Client.request E (Disbursements.client this) req w1 with
    | (Resolved resp, w2) =>
        (Resolved id,
         mkWorld (now w2) (drawn w2) (cache w2)
                 (trace w2 ++ [Logged (Http.config resp)]))
    | (Rejected err, w2) => (Rejected err, w2)
    end.
Proof.
  intros Hv id req w1.
  unfold Disbursements.transfer, Disbursements.validate, Js.rest,
    Client.post.
  unfold Promise.bind at 1 2. simpl. rewrite Hv. simpl.
  unfold Promise.bind at 1. simpl.
  unfold Promise.bind at 1. rewrite call_run. simpl.
  rewrite <- !app_assoc. simpl. fold id. fold req. fold w1.
  by destruct (Client.request E (Disbursements.client this) req w1)
    as [[resp|err] w2].
Qed.

(** The trace of a valid [transfer]: the validation, the identifier, the
    one request issued, what reached the adapter for it, and the console
    output when the client resolved. *)
Lemma transfer_valid_trace (this : Disbursements.t) (request : Js.object)
      (w : world) :
  validateTransfer E (delete "callbackUrl" request) = None ->
  let id := uuid E (drawn w) in
  let req :=
    Http.mkRequest None Http.POST "/disbursement/v1_0/transfer"
      (Some (delete "callbackUrl" request))
      (Disbursements.transferHeaders id (Js.get request "callbackUrl")) in
  let run := Disbursements.transfer E this request w in
  drawn run.2 = S (drawn w)
  /\ (run.1 = Resolved id \/ exists err, run.1 = Rejected err)
  /\ exists rs logs,
      since w run.2
      = (Validated (delete "callbackUrl" request) :: Generated id
           :: Issued req :: map Sent rs ++ map Logged logs)%list
      /\ Forall (outgoing E (Disbursements.client this) req) rs.
Proof.
  intros Hv id req run. subst run. rewrite (transfer_valid _ _ _ Hv).
  fold id. fold req.
  match goal with
  | |- context [Client.request E ?c req ?w1] =>
      destruct (request_extends E c req w1) as (Hn & Hd & rs & Ht & HP);
      destruct (Client.request E c req w1) as [[resp|err] w2]
  end; simpl in *.
  - split; [done|]. split; [by left|].
    exists rs, [Http.config resp]. split; [|done].
    apply since_app. simpl. rewrite Ht. by rewrite <- !app_assoc.
  - split; [done|]. split; [right; by eexists|].
    exists rs, []. split; [|done].
    apply since_app. simpl. rewrite Ht, app_nil_r.
    by rewrite <- !app_assoc.
Qed.

(** C2. For every valid payout request, [transfer] generates one
    reference identifier, the next one of the generator, and whatever
    the client answers, the only value the promise can be fulfilled with
    is that identifier; on a client without authentication layer whose
    adapter answers 201 to the POST on [/disbursement/v1_0/transfer],
    with any body [d], the promise is fulfilled with it. *)
Theorem transfer_resolves_with_generated_id
        (this : Disbursements.t) (request : Js.object) (w : world)
        (d : Js.value) :
  validateTransfer E (delete "callbackUrl" request) = None ->
  (forall past r,
      Http.verb r = Http.POST ->
      Http.url r = "/disbursement/v1_0/transfer" ->
      adapter E past r = Some (201%Z, d)) ->
  let id := uuid E (drawn w) in
  let run := Disbursements.transfer E this request w in
  generated (since w run.2) = [id]
  /\ drawn run.2 = S (drawn w)
  /\ (forall x, run.1 = Resolved x -> x = id)
  /\ (forall i, Disbursements.client this = Client.Plain i ->
                run.1 = Resolved id).
Proof.
  intros Hv H201 id run.
  destruct (transfer_valid_trace this request w Hv)
    as (Hd & Hres & rs & logs & Hs & _).
  fold run in Hd, Hres, Hs. fold id in Hres, Hs.
  repeat split.
  - rewrite Hs. apply valid_trace_projections.
  - done.
  - intros x Hx. destruct Hres as [Hr|[err Hr]]; congruence.
  - intros i Hi. subst run. rewrite (transfer_valid _ _ _ Hv), Hi.
    simpl. unfold Axios.request, Axios.dispatch. simpl.
    by rewrite H201.
Qed.

(** C5. The first effect of [transfer] is the validation of the payload;
    when the payload fails it, the promise is rejected with the
    validator's own reason, no request is issued, nothing reaches the
    adapter and no reference identifier is generated. *)
Theorem transfer_validates_before_anything_else
        (this : Disbursements.t) (request : Js.object) (w : world) :
  let run := Disbursements.transfer E this request w in
  (exists evs,
      since w run.2 = Validated (delete "callbackUrl" request) :: evs)
  /\ forall e,
      validateTransfer E (delete "callbackUrl" request) = Some e ->
      run.1 = Rejected e
      /\ since w run.2 = [Validated (delete "callbackUrl" request)]
      /\ issued (since w run.2) = []
      /\ sent (since w run.2) = []
      /\ generated (since w run.2) = []
      /\ drawn run.2 = drawn w.
Proof.
  intros run. split.
  - destruct (validateTransfer E (delete "callbackUrl" request))
      as [e|] eqn:Hv.
    + exists []. by apply transfer_invalid_since with (e := e).
    + destruct (transfer_valid_trace this request w Hv)
        as (_ & _ & rs & logs & Hs & _).
      fold run in Hs. rewrite Hs. by eexists.
  - intros e He. subst run.
    rewrite (transfer_invalid_since _ _ _ _ He).
    rewrite (transfer_invalid _ _ _ _ He). done.
Qed.

(** C6, as amended. For every valid payout request, [transfer] issues
    exactly one request: a POST to [/disbursement/v1_0/transfer] whose
    [X-Reference-Id] header is the generated reference identifier, and
    which has an [X-Callback-Url] header, holding the caller's value, if
    and only if the caller supplied a [callbackUrl] that is truthy (for a
    string: not empty). Everything that reaches the adapter is a token
    call or that POST with that [X-Reference-Id]. *)
Theorem transfer_issues_one_post
        (this : Disbursements.t) (request : Js.object) (w : world) :
  validateTransfer E (delete "callbackUrl" request) = None ->
  let id := uuid E (drawn w) in
  let callbackUrl := Js.get request "callbackUrl" in
  let run := Disbursements.transfer E this request w in
  generated (since w run.2) = [id]
  /\ (exists req,
        issued (since w run.2) = [req]
        /\ Http.verb req = Http.POST
        /\ Http.url req = "/disbursement/v1_0/transfer"
        /\ Http.headers req !! "X-Reference-Id" = Some (Js.Str id)
        /\ Http.headers req !! "X-Callback-Url"
           = (if Js.truthy callbackUrl then Some callbackUrl else None))
  /\ Forall (fun wire =>
               tokenCall E wire
               \/ (Http.verb wire = Http.POST
                   /\ Http.url wire = "/disbursement/v1_0/transfer"
                   /\ Http.headers wire !! "X-Reference-Id"
                      = Some (Js.Str id)))
            (sent (since w run.2)).
Proof.
  intros Hv id callbackUrl run.
  destruct (transfer_valid_trace this request w Hv)
    as (_ & _ & rs & logs & Hs & Hout).
  fold run in Hs. fold id in Hs, Hout. fold callbackUrl in Hs, Hout.
  rewrite Hs.
  match goal with
  | |- context [Issued ?r] =>
      destruct (valid_trace_projections (delete "callbackUrl" request)
                  id r rs logs) as (_ & Hg & Hi & Hsent)
  end.
  split; [exact Hg|]. split.
  - eexists. split; [exact Hi|]. simpl.
    repeat split;
      [apply transferHeaders_reference | apply transferHeaders_callback].
  - rewrite Hsent. eapply Forall_impl; [exact Hout|].
    intros wire [Htok|[(Hverb & Hurl & _ & Hh) _]]; [by left | right].
    simpl in *. repeat split; try done.
    destruct (Hh "X-Reference-Id") as [H|[? _]]; [| |done].
    + rewrite transferHeaders_reference. by eexists.
    + by rewrite H, transferHeaders_reference.
Qed.

(** C10. The payload that [transfer] hands to the validator, and the
    body of every request it issues and of every request that reaches
    the adapter for it, is the request object without its [callbackUrl]
    member: that member is gone, every other member is as the caller
    gave it; a truthy [callbackUrl] travels as the [X-Callback-Url]
    header of the one request issued. *)
Theorem transfer_body_omits_callbackUrl
        (this : Disbursements.t) (request : Js.object) (w : world) :
  let run := Disbursements.transfer E this request w in
  let payload := delete "callbackUrl" request in
  (payload !! "callbackUrl" = None
   /\ forall k, k <> "callbackUrl" -> payload !! k = request !! k)
  /\ validated (since w run.2) = [payload]
  /\ Forall (fun req => Http.data req = Some payload)
            (issued (since w run.2))
  /\ Forall (fun wire => tokenCall E wire \/ Http.data wire = Some payload)
            (sent (since w run.2))
  /\ (validateTransfer E payload = None ->
      exists req,
        issued (since w run.2) = [req]
        /\ Http.data req = Some payload
        /\ (Js.truthy (Js.get request "callbackUrl") = true ->
            Http.headers req !! "X-Callback-Url"
            = Some (Js.get request "callbackUrl"))).
Proof.
  intros run payload. split; [split|].
  - apply lookup_delete_eq.
  - intros k Hk. by apply lookup_delete_ne.
  - destruct (validateTransfer E payload) as [e|] eqn:Hv.
    + subst run. rewrite (transfer_invalid_since _ _ _ _ Hv).
      simpl. repeat split; try done.
    + destruct (transfer_valid_trace this request w Hv)
        as (_ & _ & rs & logs & Hs & Hout).
      fold run in Hs. fold payload in Hs, Hout. rewrite Hs.
      match goal with
      | |- context [Issued ?r] =>
          destruct (valid_trace_projections payload (uuid E (drawn w))
                      r rs logs) as (Hval & _ & Hi & Hsent)
      end.
      rewrite Hval, Hi, Hsent.
      split; [done|]. split; [by repeat constructor|]. split.
      * eapply Forall_impl; [exact Hout|].
        intros wire [Htok|[(_ & _ & Hdata & _) _]]; [by left | by right].
      * intros _. eexists. split; [reflexivity|]. split; [done|].
        intros Htruthy. simpl.
        by rewrite transferHeaders_callback, Htruthy.
Qed.

(** The shape of the three read operations: one GET is issued and the
    promise is fulfilled with the body of the response. *)
Lemma fetch_body (c : Client.AxiosInstance) (path : string) (w : world) :
  let req := Http.mkRequest None Http.GET path None ∅ in
  let run :=
    (await response := Client.get E c path in
     Promise.ret (Http.body response)) w in
  run = match Client.get E c path w with
        | (Resolved resp, w') => (Resolved (Http.body resp), w')
        | (Rejected e, w') => (Rejected e, w')
        end
  /\ issued (since w run.2) = [req]
  /\ Forall (outgoing E c req) (sent (since w run.2)).
Proof.
  intros req run.
  assert (run = match Client.get E c path w with
                | (Resolved resp, w') => (Resolved (Http.body resp), w')
                | (Rejected e, w') => (Rejected e, w')
                end) as Hrun.
  { subst run. unfold Promise.bind, Promise.ret.
    by destruct (Client.get E c path w) as [[resp|e] w']. }
  split; [exact Hrun|].
  assert (run.2 = (Client.call E c req w).2) as Hw.
  { rewrite Hrun. unfold Client.get. fold req.
    by destruct (Client.call E c req w) as [[resp|e] w']. }
  rewrite Hw.
  destruct (call_extends c req w) as (_ & _ & rs & Ht & HP).
  rewrite (since_app _ _ _ Ht).
  unfold issued, sent. simpl.
  fold (issued (map Sent rs)). fold (sent (map Sent rs)).
  by rewrite issued_map_Sent, sent_map_Sent.
Qed.

(** C7. [getTransaction(referenceId)] issues one request, a GET of
    [/disbursement/v1_0/transfer/{referenceId}], and [getBalance()] one
    request, a GET of [/disbursement/v1_0/account/balance]; each promise
    is fulfilled with the body of the response the client resolved with,
    as it is, and rejected as the client rejected; on a client without
    authentication layer whose adapter answers with a success status and
    a body [d], the promise is fulfilled with [d]. *)
Theorem getters_resolve_with_body
        (this : Disbursements.t) (referenceId : string) (w : world) :
  let c := Disbursements.client this in
  let decoded (p : outcome Http.response * world) :=
    match p with
    | (Resolved resp, w') => (Resolved (Http.body resp), w')
    | (Rejected e, w') => (Rejected e, w')
    end in
  let plain (path : string) (o : outcome Js.value) :=
    forall i s d,
      c = Client.Plain i ->
      adapter E
              (trace w ++ [Issued (Http.mkRequest None Http.GET path None ∅)])
              (Axios.merge i (Http.mkRequest None Http.GET path None ∅))
      = Some (s, d) ->
      Axios.validateStatus s = true ->
      o = Resolved d in
  let tx := "/disbursement/v1_0/transfer/" ++ referenceId in
  let balance := "/disbursement/v1_0/account/balance" in
  (Disbursements.getTransaction E this referenceId w
   = decoded (Client.get E c tx w)
   /\ issued (since w (Disbursements.getTransaction E this referenceId w).2)
      = [Http.mkRequest None Http.GET tx None ∅]
   /\ plain tx (Disbursements.getTransaction E this referenceId w).1)
  /\ (Disbursements.getBalance E this w = decoded (Client.get E c balance w)
      /\ issued (since w (Disbursements.getBalance E this w).2)
         = [Http.mkRequest None Http.GET balance None ∅]
      /\ plain balance (Disbursements.getBalance E this w).1).
Proof.
  intros c decoded plain tx balance.
  assert (forall path,
            plain path
              ((await response := Client.get E c path in
                Promise.ret (Http.body response)) w).1) as Hplain.
  { intros path i s d Hc Ha Hs.
    unfold Promise.bind, Client.get. rewrite call_run, Hc. simpl.
    unfold Axios.request, Axios.dispatch. simpl.
    by rewrite Ha, Hs. }
  split.
  - destruct (fetch_body c tx w) as (Hrun & Hi & _).
    split; [exact Hrun|]. split; [exact Hi | apply Hplain].
  - destruct (fetch_body c balance w) as (Hrun & Hi & _).
    split; [exact Hrun|]. split; [exact Hi | apply Hplain].
Qed.

End Facade.

(** ** The factory *)

Section FactoryProperties.
Context (E : env).
Import Wire.

Lemma layered_lookup (globalConfig last : Js.object) (k : string) :
  Factory.layered E globalConfig last !! k
  = match last !! k with
    | Some v => Some v
    | None =>
        match globalConfig !! k with
        | Some v => Some v
        | None => Factory.defaultGlobalConfig E !! k
        end
    end.
Proof.
  unfold Factory.layered, Js.spread. rewrite !lookup_union.
  destruct (last !! k), (globalConfig !! k),
    (Factory.defaultGlobalConfig E !! k); done.
Qed.

Lemma construct_accepted {A : Type} (globalConfig : Js.object)
      (member : Factory.MomoClient -> outcome A) :
  validateGlobalConfig E globalConfig = None ->
  exists momo,
    Factory.create E globalConfig = Resolved momo
    /\ Factory.construct E globalConfig member = member momo.
Proof.
  intros Hg. unfold Factory.construct, Factory.create. rewrite Hg.
  by eexists.
Qed.

Lemma construct_Disbursements (globalConfig productConfig : Js.object) :
  validateGlobalConfig E globalConfig = None ->
  Factory.construct E globalConfig
    (fun momo => Factory.Disbursements momo productConfig)
  = Resolved
      (Disbursements.new
         (Client.createAuthClient
            (Client.createTokenRefresher Client.authorizeDisbursements
               (Factory.layered E globalConfig productConfig))
            (Client.createClient E
               (Factory.layered E globalConfig productConfig)))).
Proof.
  intros Hg. unfold Factory.construct, Factory.create. by rewrite Hg.
Qed.

Lemma construct_Collections (globalConfig productConfig : Js.object) :
  validateGlobalConfig E globalConfig = None ->
  Factory.construct E globalConfig
    (fun momo => Factory.Collections momo productConfig)
  = match validateProductConfig E productConfig with
    | Some e => Rejected e
    | None =>
        Resolved
          (Factory.new_Collections
             (Client.createAuthClient
                (Client.createTokenRefresher Client.authorizeCollections
                   (Factory.layered E globalConfig productConfig))
                (Client.createClient E
                   (Factory.layered E globalConfig productConfig))))
    end.
Proof.
  intros Hg. unfold Factory.construct, Factory.create. by rewrite Hg.
Qed.

Lemma construct_rejected {A : Type} (globalConfig : Js.object)
      (member : Factory.MomoClient -> outcome A) (e : reason) :
  validateGlobalConfig E globalConfig = Some e ->
  Factory.construct E globalConfig member = Rejected e.
Proof.
  intros Hg. unfold Factory.construct, Factory.create. by rewrite Hg.
Qed.

(** C8. The configuration from which a Collections or a Disbursements
    handle is built is the merge of the three layers: for every key, the
    value of the product configuration if it has the key, else that of
    the caller's global configuration if it has the key, else the
    built-in default; the token refresher and the transport of the
    handle are both built from that one value. *)
Theorem config_precedence (globalConfig productConfig : Js.object) :
  validateGlobalConfig E globalConfig = None ->
  exists config : Js.object,
    (forall k,
        config !! k
        = match productConfig !! k with
          | Some v => Some v
          | None =>
              match globalConfig !! k with
              | Some v => Some v
              | None => Factory.defaultGlobalConfig E !! k
              end
          end)
    /\ Factory.construct E globalConfig
         (fun momo => Factory.Disbursements momo productConfig)
       = Resolved
           (Disbursements.new
              (Client.createAuthClient
                 (Client.createTokenRefresher Client.authorizeDisbursements
                    config)
                 (Client.createClient E config)))
    /\ (validateProductConfig E productConfig = None ->
        Factory.construct E globalConfig
          (fun momo => Factory.Collections momo productConfig)
        = Resolved
            (Factory.new_Collections
               (Client.createAuthClient
                  (Client.createTokenRefresher Client.authorizeCollections
                     config)
                  (Client.createClient E config)))).
Proof.
  intros Hg. exists (Factory.layered E globalConfig productConfig).
  split; [intros k; apply layered_lookup|]. split.
  - by apply construct_Disbursements.
  - intros Hp. rewrite (construct_Collections _ _ Hg). by rewrite Hp.
Qed.

(** C4, on the code. When the global configuration is refused, no handle
    is made; when it is accepted and the product configuration is one
    that [validateProductConfig] refuses, the Collections member raises
    the validator's error, whereas the Disbursements member, which never
    calls the validator, returns a handle. *)
Theorem disbursements_factory_skips_validation
        (globalConfig productConfig : Js.object) (e : reason) :
  validateProductConfig E productConfig = Some e ->
  (forall e', validateGlobalConfig E globalConfig = Some e' ->
              Factory.construct E globalConfig
                (fun momo => Factory.Disbursements momo productConfig)
              = Rejected e')
  /\ (validateGlobalConfig E globalConfig = None ->
      Factory.construct E globalConfig
        (fun momo => Factory.Collections momo productConfig)
      = Rejected e
      /\ exists handle,
          Factory.construct E globalConfig
            (fun momo => Factory.Disbursements momo productConfig)
          = Resolved handle).
Proof.
  intros Hp. split.
  - intros e' Hg. by apply construct_rejected.
  - intros Hg. split.
    + rewrite (construct_Collections _ _ Hg). by rewrite Hp.
    + eexists. by apply construct_Disbursements.
Qed.

(** C9. A Users handle is built on the plain transport: its client is
    [createClient(config)] itself, no token refresher is part of it, and
    a request handed to it leaves the token cache untouched and reaches
    the adapter once, as the instance defaults with the headers of the
    request laid over them, nothing attached. *)
Theorem users_handle_on_plain_transport
        (globalConfig subscriptionConfig : Js.object)
        (handle : Factory.Users_t) :
  Factory.construct E globalConfig
    (fun momo => Factory.Users momo subscriptionConfig)
  = Resolved handle ->
  let config := Factory.layered E globalConfig subscriptionConfig in
  Factory.users_client handle = Client.createClient E config
  /\ Client.refreshers (Factory.users_client handle) = []
  /\ forall (r : Http.request) (w : world),
      let run := Client.call E (Factory.users_client handle) r w in
      cache run.2 = cache w
      /\ since w run.2
         = [Issued r; Sent (Axios.merge (Client.plainInstance E config) r)]
      /\ forall k,
          Http.headers (Axios.merge (Client.plainInstance E config) r) !! k
          = match Http.headers r !! k with
            | Some v => Some v
            | None => (clientDefaults E config).2 !! k
            end.
Proof.
  intros Hh config. unfold Factory.construct, Factory.create in Hh.
  destruct (validateGlobalConfig E globalConfig); [done|]. simpl in Hh.
  destruct (validateSubscriptionConfig E subscriptionConfig); [done|].
  injection Hh as <-. simpl. fold config.
  split; [done|]. split; [done|]. intros r w.
  rewrite call_run. simpl. unfold Axios.request.
  rewrite dispatch_run. simpl. split; [done|]. split.
  - apply since_app. simpl. by rewrite <- app_assoc.
  - intros k. unfold Js.spread. rewrite lookup_union.
    by destruct (Http.headers r !! k), ((clientDefaults E config).2 !! k).
Qed.




End FactoryProperties.

(** ** The scenarios of the test suite *)

Lemma mock_answers_transfer (past : list event) (r : Http.request) :
  Http.verb r = Http.POST ->
  Http.url r = "/disbursement/v1_0/transfer" ->
  adapter Scenario.env past r = Some (201%Z, Js.Undefined).
Proof.
  destruct r as [b v u d h]. simpl. intros -> ->. reflexivity.
Qed.

Lemma transfer_resolves_with_generated_id_witness :
  let run :=
    Disbursements.transfer Scenario.env Scenario.mockClient Scenario.payout
                           Scenario.world0 in
  run.1 = Resolved "0b7e3f3c-6a1d-4c55-9d0e-3c1f6f5b2a10"
  /\ generated (since Scenario.world0 run.2)
     = ["0b7e3f3c-6a1d-4c55-9d0e-3c1f6f5b2a10"].
Proof.
  destruct (transfer_resolves_with_generated_id
              Scenario.env Scenario.mockClient Scenario.payout
              Scenario.world0 Js.Undefined)
    as (Hgen & _ & _ & Hplain).
  - vm_compute. reflexivity.
  - apply mock_answers_transfer.
  - split; [|exact Hgen]. eapply Hplain. reflexivity.
Defined.

Lemma transfer_validates_before_anything_else_witness :
  let run :=
    Disbursements.transfer Scenario.env Scenario.mockClient ∅
                           Scenario.world0 in
  run.1 = Rejected (ValidationError "amount is required")
  /\ issued (since Scenario.world0 run.2) = []
  /\ sent (since Scenario.world0 run.2) = []
  /\ generated (since Scenario.world0 run.2) = [].
Proof.
  destruct (proj2 (transfer_validates_before_anything_else
                     Scenario.env Scenario.mockClient ∅ Scenario.world0)
                  (ValidationError "amount is required"))
    as (Hr & _ & Hi & Hs & Hg & _).
  - vm_compute. reflexivity.
  - auto.
Defined.

(** A payout request whose [callbackUrl] is the empty string is valid and
    does supply a [callbackUrl], yet the request that [transfer] issues
    has no [X-Callback-Url] header: the header does not follow the mere
    presence of the member. *)
Lemma transfer_empty_callbackUrl_has_no_header :
  let request := <["callbackUrl" := Js.Str ""]> Scenario.payout in
  let run :=
    Disbursements.transfer Scenario.env Scenario.mockClient request
                           Scenario.world0 in
  validateTransfer Scenario.env (delete "callbackUrl" request) = None
  /\ request !! "callbackUrl" = Some (Js.Str "")
  /\ run.1 = Resolved "0b7e3f3c-6a1d-4c55-9d0e-3c1f6f5b2a10"
  /\ ~ (forall req,
          req ∈ issued (since Scenario.world0 run.2) ->
          is_Some (Http.headers req !! "X-Callback-Url")
          <-> is_Some (request !! "callbackUrl")).
Proof.
  intros request run. split; [vm_compute; reflexivity|].
  split; [vm_compute; reflexivity|].
  split; [vm_compute; reflexivity|].
  intros H.
  assert (exists req,
             issued (since Scenario.world0 run.2) = [req]
             /\ Http.headers req !! "X-Callback-Url" = None)
    as (req & Hi & Hnone).
  { eexists. split; vm_compute; reflexivity. }
  specialize (H req). rewrite Hi in H.
  destruct H as [_ H]; [by apply list_elem_of_singleton|].
  rewrite Hnone in H. destruct H as [v Hv]; [by eexists | done].
Qed.

Lemma transfer_issues_one_post_witness :
  let request :=
    <["callbackUrl" := Js.Str "https://example.org/cb"]> Scenario.payout in
  let run :=
    Disbursements.transfer Scenario.env Scenario.mockClient request
                           Scenario.world0 in
  exists req,
    issued (since Scenario.world0 run.2) = [req]
    /\ Http.headers req !! "X-Reference-Id"
       = Some (Js.Str "0b7e3f3c-6a1d-4c55-9d0e-3c1f6f5b2a10")
    /\ Http.headers req !! "X-Callback-Url"
       = Some (Js.Str "https://example.org/cb").
Proof.
  intros request run.
  destruct (transfer_issues_one_post
              Scenario.env Scenario.mockClient request Scenario.world0)
    as (_ & (req & Hi & _ & _ & Href & Hcb) & _).
  - vm_compute. reflexivity.
  - exists req. split; [exact Hi|]. split; [exact Href | exact Hcb].
Defined.

Lemma transfer_body_omits_callbackUrl_witness :
  let request :=
    <["callbackUrl" := Js.Str "https://example.org/cb"]> Scenario.payout in
  let run :=
    Disbursements.transfer Scenario.env Scenario.mockClient request
                           Scenario.world0 in
  validated (since Scenario.world0 run.2) = [Scenario.payout]
  /\ exists req,
      issued (since Scenario.world0 run.2) = [req]
      /\ Http.data req = Some Scenario.payout
      /\ Http.headers req !! "X-Callback-Url"
         = Some (Js.Str "https://example.org/cb").
Proof.
  intros request run.
  destruct (transfer_body_omits_callbackUrl
              Scenario.env Scenario.mockClient request Scenario.world0)
    as (_ & Hval & _ & _ & Hvalid).
  assert (delete "callbackUrl" request = Scenario.payout) as Hp
    by (vm_compute; reflexivity).
  rewrite Hp in Hval, Hvalid. split; [exact Hval|].
  destruct Hvalid as (req & Hi & Hd & Hcb); [vm_compute; reflexivity|].
  exists req. split; [exact Hi|]. split; [exact Hd|].
  apply Hcb. vm_compute. reflexivity.
Defined.

(** The two read scenarios of section 8: against the mock, the transaction
    and the balance come back exactly as the mock holds them. *)
Lemma getters_resolve_with_body_witness :
  (Disbursements.getTransaction Scenario.env Scenario.mockClient
     "0b7e3f3c-6a1d-4c55-9d0e-3c1f6f5b2a10" Scenario.world0).1
  = Resolved Mock.transfer
  /\ (Disbursements.getBalance Scenario.env Scenario.mockClient
        Scenario.world0).1
     = Resolved Mock.accountBalance.
Proof.
  destruct (getters_resolve_with_body
              Scenario.env Scenario.mockClient
              "0b7e3f3c-6a1d-4c55-9d0e-3c1f6f5b2a10" Scenario.world0)
    as ((_ & _ & Htx) & (_ & _ & Hbal)).
  split.
  - eapply (Htx _ 200%Z); [reflexivity | vm_compute; reflexivity
                                 | reflexivity].
  - eapply (Hbal _ 200%Z); [reflexivity | vm_compute; reflexivity
                                  | reflexivity].
Defined.

Lemma config_precedence_witness :
  exists config : Js.object,
    config !! "baseUrl" = Some (Js.Str "https://momo.example")
    /\ config !! "environment" = Some (Js.Str "sandbox")
    /\ config !! "primaryKey" = Some (Js.Str "key")
    /\ Factory.construct Scenario.env
         {[ "baseUrl" := Js.Str "https://momo.example";
            "primaryKey" := Js.Str "global key" ]}
         (fun momo => Factory.Disbursements momo Scenario.productConfig)
       = Resolved
           (Disbursements.new
              (Client.createAuthClient
                 (Client.createTokenRefresher Client.authorizeDisbursements
                    config)
                 (Client.createClient Scenario.env config))).
Proof.
  destruct (config_precedence Scenario.env
              {[ "baseUrl" := Js.Str "https://momo.example";
                 "primaryKey" := Js.Str "global key" ]}
              Scenario.productConfig)
    as (config & Hk & Hd & _).
  - vm_compute. reflexivity.
  - exists config. rewrite !Hk. split; [vm_compute; reflexivity|].
    split; [vm_compute; reflexivity|].
    split; [vm_compute; reflexivity|]. exact Hd.
Defined.

Lemma disbursements_factory_skips_validation_witness :
  validateProductConfig Scenario.env ∅
  = Some (ConfigurationError "primaryKey is required")
  /\ Factory.construct Scenario.env ∅
       (fun momo => Factory.Collections momo ∅)
     = Rejected (ConfigurationError "primaryKey is required")
  /\ exists handle,
      Factory.construct Scenario.env ∅
        (fun momo => Factory.Disbursements momo ∅)
      = Resolved handle.
Proof.
  split; [vm_compute; reflexivity|].
  apply (disbursements_factory_skips_validation Scenario.env ∅ ∅
           (ConfigurationError "primaryKey is required")).
  - vm_compute. reflexivity.
  - vm_compute. reflexivity.
Defined.

Lemma users_handle_on_plain_transport_witness :
  exists handle : Factory.Users_t,
    Factory.construct Scenario.env ∅
      (fun momo => Factory.Users momo {[ "primaryKey" := Js.Str "key" ]})
    = Resolved handle
    /\ Client.refreshers (Factory.users_client handle) = [].
Proof.
  eexists. split; [vm_compute; reflexivity|].
  eapply (users_handle_on_plain_transport Scenario.env ∅
            {[ "primaryKey" := Js.Str "key" ]}).
  vm_compute. reflexivity.
Defined.



(** ** The patterns of the mock *)

Section RegexFacts.
Import Regex Scan.

Lemma prefix_Alt (a b : regex) (s : string) :
  prefix (Alt a b) s = prefix a s || prefix b s.
Proof.
  revert a b. induction s as [|c s IH]; intros a b; simpl.
  - by rewrite !orb_false_r.
  - rewrite IH.
    destruct (nullable a), (nullable b), (prefix (deriv c a) s); done.
Qed.

Lemma accepts_Alt (a b : regex) (s : string) :
  accepts (Alt a b) s = accepts a s || accepts b s.
Proof.
  revert a b. induction s as [|c s IH]; intros a b; simpl; [done|].
  apply IH.
Qed.

Lemma prefix_of_nullable (r : regex) (s : string) :
  nullable r = true -> prefix r s = true.
Proof. intros H. destruct s; simpl; by rewrite H. Qed.

(** A full match of [r1] followed by a match of a prefix by [r2] is a
    match of a prefix by [Seq r1 r2]. *)
Lemma prefix_Seq_intro (r1 r2 : regex) (s1 s2 : string) :
  accepts r1 s1 = true -> prefix r2 s2 = true ->
  prefix (Seq r1 r2) (s1 ++ s2) = true.
Proof.
  revert r1. induction s1 as [|c s1 IH]; intros r1 H1 H2; simpl in *.
  - destruct s2 as [|c s2]; simpl in *.
    + rewrite orb_false_r in H2. by rewrite H1, H2.
    + rewrite H1. simpl. rewrite prefix_Alt.
      destruct (nullable r2); simpl in *; [done|].
      rewrite H2. by rewrite orb_true_r.
  - apply orb_true_iff. right.
    destruct (nullable r1); [rewrite prefix_Alt|]; rewrite (IH _ H1 H2);
      done.
Qed.

Lemma accepts_Seq_intro (r1 r2 : regex) (s1 s2 : string) :
  accepts r1 s1 = true -> accepts r2 s2 = true ->
  accepts (Seq r1 r2) (s1 ++ s2) = true.
Proof.
  revert r1. induction s1 as [|c s1 IH]; intros r1 H1 H2; simpl in *.
  - destruct s2 as [|c s2]; simpl in *.
    + by rewrite H1, H2.
    + rewrite H1, accepts_Alt, H2. by rewrite orb_true_r.
  - destruct (nullable r1); [rewrite accepts_Alt|]; rewrite (IH _ H1 H2);
      done.
Qed.

Lemma accepts_Lit (p : string) : accepts (Lit p) p = true.
Proof.
  induction p as [|c p IH]; [done|].
  change (String c p) with (String c "" ++ p) at 2.
  change (Lit (String c p)) with (Seq (Class (Ascii.eqb c)) (Lit p)).
  apply accepts_Seq_intro; [|done]. simpl. by rewrite Ascii.eqb_refl.
Qed.

Lemma prefix_Plus_Class (p : ascii -> bool) (c : ascii) (s : string) :
  p c = true -> prefix (Plus (Class p)) (String c s) = true.
Proof.
  intros Hc. change (String c s) with (String c "" ++ s).
  apply prefix_Seq_intro; [simpl; by rewrite Hc|].
  by apply prefix_of_nullable.
Qed.

Lemma test_of_prefix (r : regex) (s : string) :
  prefix r s = true -> test r s = true.
Proof. intros H. destruct s; simpl in *; by rewrite H. Qed.

Lemma in_all_ascii (a : ascii) : In a all_ascii.
Proof.
  unfold all_ascii. apply in_map_iff. exists (nat_of_ascii a).
  split; [apply ascii_nat_embedding|].
  apply in_seq. pose proof (nat_ascii_bounded a). lia.
Qed.

Lemma demand_nullable (c : ascii) (r : regex) :
  0 < demand c r -> nullable r = false.
Proof.
  induction r as [| |p|r1 IH1 r2 IH2|r1 IH1 r2 IH2|r IH];
    cbn [demand nullable]; intros H; try done; try lia.
  - destruct (decide (0 < demand c r1)) as [H1|H1].
    + by rewrite (IH1 H1).
    + rewrite IH2; [by rewrite andb_false_r | lia].
  - rewrite IH1, IH2; [done | lia | lia].
Qed.

(** Reading a character lowers the demand by one at most, and not at all
    when the character is not [c]. *)
Lemma demand_deriv (c c' : ascii) (r : regex) :
  demand c r <= demand c (deriv c' r) + (if Ascii.eqb c' c then 1 else 0).
Proof.
  induction r as [| |p|r1 IH1 r2 IH2|r1 IH1 r2 IH2|r IH];
    cbn [demand deriv]; try lia.
  - match goal with
    | |- context [forallb ?f all_ascii] =>
        destruct (forallb f all_ascii) eqn:Hall; [|lia]
    end.
    destruct (p c') eqn:Hp; cbn [demand]; [|lia].
    rewrite forallb_forall in Hall.
    specialize (Hall c' (in_all_ascii c')). rewrite Hp in Hall.
    cbn [implb] in Hall. rewrite Hall. lia.
  - destruct (nullable r1) eqn:Hn; cbn [demand]; [|lia].
    assert (demand c r1 = 0) as H0.
    { destruct (decide (0 < demand c r1)) as [H|H]; [|lia].
      apply demand_nullable in H. congruence. }
    lia.
Qed.

Lemma prefix_demand (c : ascii) (s : string) :
  forall r, occurrences c s < demand c r -> prefix r s = false.
Proof.
  induction s as [|c' s IH]; intros r H; simpl in *.
  - rewrite (demand_nullable c); [done | lia].
  - rewrite (demand_nullable c); [|lia]. simpl. apply IH.
    pose proof (demand_deriv c c' r). lia.
Qed.

Lemma test_demand (c : ascii) (r : regex) (s : string) :
  occurrences c s < demand c r -> test r s = false.
Proof.
  induction s as [|c' s IH]; intros H.
  - cbn [test]. rewrite (prefix_demand c "" r H). done.
  - change (test r (String c' s))
      with (prefix r (String c' s) || test r s).
    rewrite (prefix_demand c _ r H). simpl in H. rewrite IH; [done | lia].
Qed.

Lemma existsb_orb {A : Type} (f g : A -> bool) (l : list A) :
  existsb (fun a => f a || g a) l = existsb f l || existsb g l.
Proof.
  induction l as [|a l IH]; simpl; [done|]. rewrite IH.
  destruct (f a), (g a), (existsb f l); done.
Qed.

Lemma existsb_map {A B : Type} (f : B -> bool) (g : A -> B) (l : list A) :
  existsb f (map g l) = existsb (fun a => f (g a)) l.
Proof. induction l as [|a l IH]; simpl; [done | by rewrite IH]. Qed.

Lemma test_from_cons (rs : list regex) (r : regex) (c : ascii)
      (s : string) :
  test_from rs r (String c s)
  = existsb nullable rs || nullable r
    || test_from (map (deriv c) (r :: rs)) r s.
Proof.
  unfold test_from.
  change (test r (String c s))
    with ((nullable r || prefix (deriv c r) s) || test r s).
  change (existsb (fun r' => prefix r' (String c s)) rs)
    with (existsb (fun r' => nullable r' || prefix (deriv c r') s) rs).
  rewrite existsb_orb. simpl. rewrite existsb_map.
  destruct (existsb nullable rs), (nullable r), (prefix (deriv c r) s),
    (existsb (fun r' => prefix (deriv c r') s) rs); done.
Qed.

(** [scan] reads a known beginning of the string for [test]. *)
Lemma scan_spec (r : regex) (p : string) :
  forall (rs : list regex) (s : string),
    test_from rs r (p ++ s)
    = (scan r rs p).1 || test_from (scan r rs p).2 r s.
Proof.
  induction p as [|c p IH]; intros rs s; [done|].
  change (String c p ++ s) with (String c (p ++ s)).
  rewrite test_from_cons, IH. cbn [scan].
  destruct (scan r (map (deriv c) (r :: rs)) p) as [hit rs'].
  cbn [fst snd]. by rewrite !orb_assoc.
Qed.

(** After a known beginning [p] in which no match is complete, no match
    is possible when what follows has fewer [c] than the pattern, and
    every match begun in [p], still demands. *)
Lemma test_blocked (c : ascii) (n : nat) (r : regex) (p s : string) :
  occurrences c s <= n ->
  (scan r [] p).1 = false ->
  forallb (fun r' => (n <? demand c r')%nat) (r :: (scan r [] p).2) = true ->
  test r (p ++ s) = false.
Proof.
  intros Hocc Hhit Hall.
  assert (test r (p ++ s) = test_from [] r (p ++ s)) as -> by done.
  rewrite scan_spec, Hhit. simpl in *.
  apply andb_true_iff in Hall as [Hr Hrs].
  unfold test_from. rewrite (test_demand c).
  2: { apply Nat.ltb_lt in Hr. lia. }
  rewrite orb_false_r. apply not_true_iff_false. intros Hex.
  apply existsb_exists in Hex as (r' & Hin & Hpre).
  rewrite forallb_forall in Hrs. specialize (Hrs r' Hin).
  apply Nat.ltb_lt in Hrs.
  rewrite (prefix_demand c) in Hpre; [done | lia].
Qed.

Lemma occurrences_app (c : ascii) (s t : string) :
  occurrences c (s ++ t) = occurrences c s + occurrences c t.
Proof. induction s as [|c' s IH]; simpl; [done | rewrite IH; lia]. Qed.

(** A string of characters none of which is [c] has no [c]. *)
Lemma occurrences_all (c : ascii) (p : ascii -> bool) (s : string) :
  p c = false -> all p s = true -> occurrences c s = 0.
Proof.
  intros Hc. induction s as [|c' s IH]; simpl; [done|].
  intros [Hp Hs]%andb_true_iff. rewrite (IH Hs).
  destruct (Ascii.eqb c' c) eqn:He; [|done].
  apply Ascii.eqb_eq in He. congruence.
Qed.

End RegexFacts.

(** ** More on the Disbursements façade *)

Section FacadeOutcomes.
Context (E : env).
Import Wire.

Lemma logged_tail (rs logs : list Http.request) :
  logged (map Sent rs ++ map Logged logs) = logs.
Proof.
  induction rs as [|r rs IH]; [|exact IH].
  induction logs as [|l logs IH]; [done|].
  change (logged (map Sent [] ++ map Logged (l :: logs)))
    with (l :: logged (map Sent [] ++ map Logged logs)).
  by rewrite IH.
Qed.

(** The response that [Axios.dispatch] resolves with holds the request
    it was given. *)
Lemma dispatch_resolved (r : Http.request) (w w' : world)
      (resp : Http.response) :
  Axios.dispatch E r w = (Resolved resp, w') -> Http.config resp = r.
Proof.
  unfold Axios.dispatch.
  destruct (adapter E (trace w) r) as [[s d]|]; [|done].
  destruct (Axios.validateStatus s); [|done]. by intros [= <- _].
Qed.

(** When a client resolves, the configuration of its response is the last
    request that reached the adapter. *)
Lemma request_resolved_last (c : Client.AxiosInstance) :
  forall (r : Http.request) (w w' : world) (resp : Http.response),
    Client.request E c r w = (Resolved resp, w') ->
    exists rs,
      trace w' = (trace w ++ map Sent rs ++ [Sent (Http.config resp)])%list.
Proof.
  induction c as [i|refresh inner IH]; intros r w w' resp Hrun.
  - simpl in Hrun. unfold Axios.request in Hrun.
    pose proof (dispatch_run E (Axios.merge i r) w) as Hw.
    rewrite Hrun in Hw. simpl in Hw.
    apply dispatch_resolved in Hrun. exists []. subst w'. simpl.
    by rewrite Hrun.
  - simpl in Hrun. unfold Promise.bind, Promise.settle in Hrun.
    pose proof (getToken_extends E refresh w) as (_ & _ & rs1 & Ht1 & _).
    destruct (Client.getToken E refresh w) as [[t|e] w1]; [|done].
    simpl in Ht1.
    pose proof (request_extends E inner (Client.attach t r) w1)
      as (_ & _ & rs2 & Ht2 & _).
    destruct (Client.request E inner (Client.attach t r) w1)
      as [o w2] eqn:H2.
    simpl in Ht2.
    destruct (Client.rejectedCredential E o) eqn:Hrej.
    + pose proof (getToken_extends E refresh (Client.invalidate w2).2)
        as (_ & _ & rs4 & Ht4 & _).
      simpl in Hrun, Ht4.
      match type of Hrun with
      | context [Client.getToken E refresh ?w3] =>
          destruct (Client.getToken E refresh w3) as [[t'|e] w4]; [|done]
      end.
      simpl in Ht4.
      destruct (Client.request E inner (Client.attach t' r) w4)
        as [o' w5] eqn:H5.
      injection Hrun as Ho <-.
      assert (o' = Resolved resp) as ->.
      { destruct o' as [resp'|[d|d|resp'|resp']]; simpl in Ho; try done.
        destruct resp' as [resp'|]; [|done].
        by destruct (isAuthRejection E (Http.status resp')). }
      destruct (IH _ _ _ _ H5) as (rs5 & Ht5).
      exists (rs1 ++ rs2 ++ rs4 ++ rs5)%list.
      rewrite Ht5, Ht4, Ht2, Ht1, !map_app. by rewrite <- !app_assoc.
    + injection Hrun as -> <-.
      destruct (IH _ _ _ _ H2) as (rs3 & Ht3).
      exists (rs1 ++ rs3)%list. rewrite Ht3, Ht1, map_app.
      by rewrite <- !app_assoc.
Qed.

(** The two ways in which a valid [transfer] ends. *)
Lemma transfer_valid_cases (this : Disbursements.t) (request : Js.object)
      (w : world) :
  validateTransfer E (delete "callbackUrl" request) = None ->
  let id := uuid E (drawn w) in
  let req :=
    Http.mkRequest None Http.POST "/disbursement/v1_0/transfer"
      (Some (delete "callbackUrl" request))
      (Disbursements.transferHeaders id (Js.get request "callbackUrl")) in
  let run := Disbursements.transfer E this request w in
  now run.2 = now w /\ drawn run.2 = S (drawn w)
  /\ ((exists rs cfg,
         run.1 = Resolved id
         /\ trace run.2
            = (trace w ++ Validated (delete "callbackUrl" request)
                 :: Generated id :: Issued req
                 :: map Sent (rs ++ [cfg]) ++ map Logged [cfg])%list)
      \/ (exists err rs,
             run.1 = Rejected err
             /\ (Client.request E (Disbursements.client this) req
                   (mkWorld (now w) (S (drawn w)) (cache w)
                      (trace w
                         ++ [Validated (delete "callbackUrl" request);
                             Generated id; Issued req]))).1
                = Rejected err
             /\ trace run.2
                = (trace w ++ Validated (delete "callbackUrl" request)
                     :: Generated id :: Issued req
                     :: map Sent rs ++ map Logged [])%list)).
Proof.
  intros Hv id req run. subst run. rewrite (transfer_valid E _ _ _ Hv).
  fold id. fold req.
  match goal with
  | |- context [Client.request E ?c req ?w1] =>
      pose proof (request_extends E c req w1) as (Hn & Hd & rs & Ht & _);
      pose proof (request_resolved_last c req w1) as Hlast;
      destruct (Client.request E c req w1) as [[resp|err] w2]
  end; simpl in *.
  - split; [done|]. split; [done|]. left.
    destruct (Hlast _ _ eq_refl) as (rs' & Ht').
    exists rs', (Http.config resp). split; [done|].
    rewrite Ht', map_app. simpl. by rewrite <- !app_assoc.
  - split; [done|]. split; [done|]. right.
    exists err, rs. split; [done|]. split; [done|].
    rewrite Ht, app_nil_r. by rewrite <- !app_assoc.
Qed.

End FacadeOutcomes.

Section FacadeExtras.
Context (E : env).
Import Wire.

Lemma since_trans (w w1 w2 : world) (a b : list event) :
  trace w1 = (trace w ++ a)%list -> trace w2 = (trace w1 ++ b)%list ->
  since w w2 = (a ++ b)%list.
Proof.
  intros Ha Hb. apply since_app. rewrite Hb, Ha. by rewrite <- app_assoc.
Qed.

Lemma logged_valid_trace (p : Js.object) (id : string) (req : Http.request)
      (rs logs : list Http.request) :
  logged (Validated p :: Generated id :: Issued req
            :: map Sent rs ++ map Logged logs)%list
  = logs.
Proof. apply (logged_tail rs logs). Qed.

(** What a valid [transfer] adds to the trace holds one identifier and one
    issued request, whichever way it ends. *)
Lemma transfer_valid_effects (this : Disbursements.t) (request : Js.object)
      (w : world) :
  validateTransfer E (delete "callbackUrl" request) = None ->
  let id := uuid E (drawn w) in
  let req :=
    Http.mkRequest None Http.POST "/disbursement/v1_0/transfer"
      (Some (delete "callbackUrl" request))
      (Disbursements.transferHeaders id (Js.get request "callbackUrl")) in
  let run := Disbursements.transfer E this request w in
  drawn run.2 = S (drawn w)
  /\ exists evs,
      trace run.2 = (trace w ++ evs)%list
      /\ generated evs = [id] /\ issued evs = [req]
      /\ validated evs = [delete "callbackUrl" request].
Proof.
  intros Hv id req run.
  destruct (transfer_valid_cases E this request w Hv)
    as (_ & Hd & [(rs & cfg & _ & Ht)|(err & rs & _ & _ & Ht)]);
    fold id in Ht; fold req in Ht; fold run in Hd, Ht;
    (split; [exact Hd|]); eexists; (split; [exact Ht|]);
    match goal with
    | |- context [(map Sent ?rs' ++ map Logged ?logs)%list] =>
        destruct (valid_trace_projections
                    (delete "callbackUrl" request) id req rs' logs)
          as (Hval & Hg & Hi & _)
    end; done.
Qed.

Lemma transferHeaders_falsy (id : string) (v1 v2 : Js.value) :
  (if Js.truthy v1 then Some v1 else None)
  = (if Js.truthy v2 then Some v2 else None) ->
  Disbursements.transferHeaders id v1 = Disbursements.transferHeaders id v2.
Proof.
  unfold Disbursements.transferHeaders.
  destruct (Js.truthy v1), (Js.truthy v2); congruence.
Qed.

(** The three read operations add to the trace the one request they issue
    and what reaches the adapter for it, and leave the clock and the
    identifier supply alone. *)
Lemma fetch_frame (c : Client.AxiosInstance) (path : string) (w : world) :
  let run :=
    (await response := Client.get E c path in
     Promise.ret (Http.body response)) w in
  now run.2 = now w /\ drawn run.2 = drawn w
  /\ exists rs,
      since w run.2
      = Issued (Http.mkRequest None Http.GET path None ∅) :: map Sent rs.
Proof.
  intros run.
  assert (run.2 = (Client.call E c
                     (Http.mkRequest None Http.GET path None ∅) w).2) as ->.
  { subst run. unfold Promise.bind, Promise.ret, Client.get.
    by destruct (Client.call E c _ w) as [[resp|e] w']. }
  destruct (call_extends E c (Http.mkRequest None Http.GET path None ∅) w)
    as (Hn & Hd & rs & Ht & _).
  split; [done|]. split; [done|]. exists rs. by apply since_app.
Qed.

Lemma only_issued_and_sent (r : Http.request) (rs : list Http.request) :
  generated (Issued r :: map Sent rs) = []
  /\ validated (Issued r :: map Sent rs) = []
  /\ logged (Issued r :: map Sent rs) = [].
Proof.
  split; [apply generated_map_Sent|]. split; [apply validated_map_Sent|].
  pose proof (logged_tail rs []) as H. simpl in H.
  by rewrite app_nil_r in H.
Qed.

(** X1. [isPayerActive(id, type)] issues one request, a GET of
    [/disbursement/v1_0/accountholder/{type}/{id}/active], and is settled
    as the client settles it, a response giving its body; leaving [type]
    out is the same as passing [MSISDN]. *)
Theorem isPayerActive_path_and_default
        (this : Disbursements.t) (id : string)
        (type : option Disbursements.PartyIdType) (w : world) :
  let path :=
    "/disbursement/v1_0/accountholder/"
      ++ Disbursements.PartyIdType_value
           (default Disbursements.MSISDN type)
      ++ "/" ++ id ++ "/active" in
  let run := Disbursements.isPayerActive E this id type w in
  Disbursements.isPayerActive E this id None w
  = Disbursements.isPayerActive E this id (Some Disbursements.MSISDN) w
  /\ issued (since w run.2) = [Http.mkRequest None Http.GET path None ∅]
  /\ run = match Client.get E (Disbursements.client this) path w with
           | (Resolved resp, w') => (Resolved (Http.body resp), w')
           | (Rejected e, w') => (Rejected e, w')
           end.
Proof.
  intros path run. split; [done|].
  destruct (fetch_body E (Disbursements.client this) path w)
    as (Hrun & Hi & _).
  split; [exact Hi | exact Hrun].
Qed.

(** X2. The three read operations do nothing but their one request: no
    reference identifier is generated, no payload is validated, nothing
    is written to the console, and the clock and the identifier supply
    are as before. *)
Theorem reads_have_no_other_effect
        (this : Disbursements.t) (referenceId id : string)
        (type : option Disbursements.PartyIdType) (w : world) :
  let quiet (after : world) :=
    now after = now w /\ drawn after = drawn w
    /\ generated (since w after) = []
    /\ validated (since w after) = []
    /\ logged (since w after) = []
    /\ List.length (issued (since w after)) = 1%nat in
  quiet (Disbursements.getTransaction E this referenceId w).2
  /\ quiet (Disbursements.getBalance E this w).2
  /\ quiet (Disbursements.isPayerActive E this id type w).2.
Proof.
  intros quiet.
  assert (forall path,
            quiet ((await response :=
                      Client.get E (Disbursements.client this) path in
                    Promise.ret (Http.body response)) w).2) as Hq.
  { intros path.
    destruct (fetch_frame (Disbursements.client this) path w)
      as (Hn & Hd & rs & Hs).
    destruct (only_issued_and_sent
                (Http.mkRequest None Http.GET path None ∅) rs)
      as (Hg & Hv & Hl).
    unfold quiet. rewrite Hs, Hg, Hv, Hl.
    repeat split; try done.
    unfold issued. simpl. fold (issued (map Sent rs)).
    by rewrite issued_map_Sent. }
  split; [apply Hq|]. split; apply Hq.
Qed.


(** X4. A valid [transfer] writes to the console exactly when its promise
    is fulfilled: once, as its last effect, and what it writes is the
    configuration of the last request that reached the adapter. When the
    client rejects, nothing is written, the rejection is the client's own,
    and the request has been issued once, not again. *)
Theorem transfer_logs_on_success_only
        (this : Disbursements.t) (request : Js.object) (w : world) :
  validateTransfer E (delete "callbackUrl" request) = None ->
  let run := Disbursements.transfer E this request w in
  List.length (issued (since w run.2)) = 1%nat
  /\ (forall x, run.1 = Resolved x ->
                exists evs cfg,
                  since w run.2 = (evs ++ [Sent cfg; Logged cfg])%list
                  /\ logged (since w run.2) = [cfg])
  /\ (forall err, run.1 = Rejected err -> logged (since w run.2) = []).
Proof.
  intros Hv run.
  destruct (transfer_valid_cases E this request w Hv)
    as (_ & _ & [(rs & cfg & Hr & Ht)|(err & rs & Hr & _ & Ht)]);
    fold run in Hr, Ht; apply since_app in Ht; rewrite Ht;
    match goal with
    | |- context [Issued ?q :: (map Sent ?rs' ++ map Logged ?logs)%list] =>
        destruct (valid_trace_projections
                    (delete "callbackUrl" request) (uuid E (drawn w))
                    q rs' logs) as (_ & _ & Hi & _);
        pose proof (logged_valid_trace
                      (delete "callbackUrl" request) (uuid E (drawn w))
                      q rs' logs) as Hl
    end; rewrite Hi, Hl; (split; [done|]); split.
  - intros x _.
    match goal with
    | |- context [Validated ?p :: Generated ?g :: Issued ?q :: _] =>
        exists ([Validated p; Generated g; Issued q] ++ map Sent rs)%list, cfg
    end.
    split; [|done]. rewrite map_app. simpl. by rewrite <- app_assoc.
  - intros err. by rewrite Hr.
  - intros x. by rewrite Hr.
  - done.
Qed.

(** X5. Two valid transfers, one after the other, use two successive
    identifiers of the generator, each as the [X-Reference-Id] of its own
    request; this holds whichever way the first transfer ends, so a
    transfer that the client rejects has used up its identifier. *)
Theorem successive_transfers_use_successive_ids
        (this : Disbursements.t) (first second : Js.object) (w : world) :
  validateTransfer E (delete "callbackUrl" first) = None ->
  validateTransfer E (delete "callbackUrl" second) = None ->
  let run1 := Disbursements.transfer E this first w in
  let run2 := Disbursements.transfer E this second run1.2 in
  generated (since w run2.2) = [uuid E (drawn w); uuid E (S (drawn w))]
  /\ exists q1 q2,
      issued (since w run2.2) = [q1; q2]
      /\ Http.headers q1 !! "X-Reference-Id"
         = Some (Js.Str (uuid E (drawn w)))
      /\ Http.headers q2 !! "X-Reference-Id"
         = Some (Js.Str (uuid E (S (drawn w)))).
Proof.
  intros Hv1 Hv2 run1 run2.
  destruct (transfer_valid_effects this first w Hv1)
    as (Hd1 & a & Ha & Hga & Hia & _).
  destruct (transfer_valid_effects this second run1.2 Hv2)
    as (_ & b & Hb & Hgb & Hib & _).
  fold run1 in Hd1, Ha, Hb, Hgb, Hib. fold run2 in Hb.
  rewrite Hd1 in Hgb, Hib.
  rewrite (since_trans _ _ _ _ _ Ha Hb).
  unfold generated, issued in *. rewrite !omap_app, Hga, Hgb, Hia, Hib.
  split; [done|]. eexists _, _. split; [reflexivity|].
  split; apply transferHeaders_reference.
Qed.

(** X6. [transfer] looks at [callbackUrl] only through its truthiness:
    two requests with the same other members, whose [callbackUrl] are both
    falsy (absent, [undefined], [null], the empty string) or are the same
    truthy value, are treated alike in every respect. *)
Theorem transfer_falsy_callbackUrl_is_absent
        (this : Disbursements.t) (r1 r2 : Js.object) (w : world) :
  delete "callbackUrl" r1 = delete "callbackUrl" r2 ->
  (if Js.truthy (Js.get r1 "callbackUrl")
   then Some (Js.get r1 "callbackUrl") else None)
  = (if Js.truthy (Js.get r2 "callbackUrl")
     then Some (Js.get r2 "callbackUrl") else None) ->
  Disbursements.transfer E this r1 w = Disbursements.transfer E this r2 w.
Proof.
  intros Hd Hcb.
  destruct (validateTransfer E (delete "callbackUrl" r1)) as [e|] eqn:Hv.
  - rewrite (transfer_invalid E this r1 w e Hv).
    rewrite Hd in Hv. rewrite (transfer_invalid E this r2 w e Hv).
    by rewrite Hd.
  - rewrite (transfer_valid E this r1 w Hv).
    rewrite Hd in Hv. rewrite (transfer_valid E this r2 w Hv).
    by rewrite Hd, (transferHeaders_falsy _ _ _ Hcb).
Qed.

(** X7. [transfer] never validates [callbackUrl]: whatever value the
    member is given, a string or not, the payload handed to the validator
    is the same, a request that fails validation fails with the same
    reason, and a request that passes goes out with that value, as it is,
    in [X-Callback-Url] when it is truthy. *)
Theorem transfer_does_not_validate_callbackUrl
        (this : Disbursements.t) (request : Js.object) (v : Js.value)
        (w : world) :
  let run :=
    Disbursements.transfer E this (<["callbackUrl" := v]> request) w in
  validated (since w run.2) = [delete "callbackUrl" request]
  /\ (forall e,
         validateTransfer E (delete "callbackUrl" request) = Some e ->
         run.1 = Rejected e)
  /\ (validateTransfer E (delete "callbackUrl" request) = None ->
      exists req,
        issued (since w run.2) = [req]
        /\ Http.data req = Some (delete "callbackUrl" request)
        /\ Http.headers req !! "X-Callback-Url"
           = (if Js.truthy v then Some v else None)).
Proof.
  intros run.
  assert (delete "callbackUrl" (<["callbackUrl" := v]> request)
          = delete "callbackUrl" request) as Hd by apply delete_insert_eq.
  assert (Js.get (<["callbackUrl" := v]> request) "callbackUrl" = v) as Hg
    by (unfold Js.get; by rewrite lookup_insert_eq).
  destruct (validateTransfer E (delete "callbackUrl" request))
    as [e|] eqn:Hv.
  - assert (validateTransfer E
              (delete "callbackUrl" (<["callbackUrl" := v]> request))
            = Some e) as Hv' by (by rewrite Hd).
    subst run. rewrite (transfer_invalid_since E _ _ _ _ Hv').
    rewrite (transfer_invalid E _ _ _ _ Hv'), Hd. simpl.
    split; [done|]. split; [|done]. by intros e' [= ->].
  - assert (validateTransfer E
              (delete "callbackUrl" (<["callbackUrl" := v]> request))
            = None) as Hv' by (by rewrite Hd).
    destruct (transfer_valid_effects this _ w Hv')
      as (_ & evs & Ht & _ & Hi & Hval).
    fold run in Ht. apply since_app in Ht. rewrite Ht, Hval, Hi, Hd.
    split; [done|]. split; [done|]. intros _. eexists.
    split; [reflexivity|]. split; [done|]. simpl.
    by rewrite transferHeaders_callback, Hg.
Qed.

(** X8. The request that a valid [transfer] issues names no base URL and
    has no header besides [X-Reference-Id] and, for a truthy
    [callbackUrl], [X-Callback-Url]: in particular the façade itself sets
    neither [Authorization] nor [Content-Type]. *)
Theorem transfer_sets_only_its_own_headers
        (this : Disbursements.t) (request : Js.object) (w : world) :
  validateTransfer E (delete "callbackUrl" request) = None ->
  let run := Disbursements.transfer E this request w in
  exists req,
    issued (since w run.2) = [req]
    /\ Http.baseURL req = None
    /\ dom (Http.headers req)
       = (if Js.truthy (Js.get request "callbackUrl")
          then {[ "X-Reference-Id"; "X-Callback-Url" ]}
          else {[ "X-Reference-Id" ]} : gset string).
Proof.
  intros Hv run.
  destruct (transfer_valid_effects this request w Hv)
    as (_ & evs & Ht & _ & Hi & _).
  fold run in Ht. apply since_app in Ht. rewrite Ht, Hi.
  eexists. split; [reflexivity|]. split; [done|]. simpl.
  unfold Disbursements.transferHeaders, Js.spread.
  destruct (Js.truthy (Js.get request "callbackUrl")).
  - rewrite dom_union_L, !dom_singleton_L. set_solver.
  - by rewrite (left_id_L ∅ (∪)), dom_singleton_L.
Qed.

End FacadeExtras.

(** ** More on the factory *)

Section FactoryExtras.
Context (E : env).

Lemma layered_dom (globalConfig last : Js.object) :
  dom (Factory.layered E globalConfig last)
  = ({[ "baseUrl"; "environment" ]} ∪ dom globalConfig ∪ dom last
     : gset string).
Proof.
  unfold Factory.layered, Js.spread, Factory.defaultGlobalConfig.
  rewrite !dom_union_L, !dom_insert_L, dom_singleton_L. set_solver.
Qed.

(** X9. The Users member of the factory: an error on the global
    configuration is raised whatever the subscription configuration; with
    the global configuration accepted, a subscription configuration that
    [validateSubscriptionConfig] refuses raises the validator's error; and
    otherwise the handle is built on [createClient] of the merge of the
    three layers, the subscription configuration first, then the global
    one, then the defaults. *)
Theorem users_member_outcome (globalConfig subscriptionConfig : Js.object) :
  let users :=
    Factory.construct E globalConfig
      (fun momo => Factory.Users momo subscriptionConfig) in
  (forall e, validateGlobalConfig E globalConfig = Some e ->
             users = Rejected e)
  /\ (validateGlobalConfig E globalConfig = None ->
      (forall e,
          validateSubscriptionConfig E subscriptionConfig = Some e ->
          users = Rejected e)
      /\ (validateSubscriptionConfig E subscriptionConfig = None ->
          exists config : Js.object,
            users = Resolved (Factory.new_Users
                                (Client.createClient E config))
            /\ forall k,
                config !! k
                = match subscriptionConfig !! k with
                  | Some v => Some v
                  | None =>
                      match globalConfig !! k with
                      | Some v => Some v
                      | None => Factory.defaultGlobalConfig E !! k
                      end
                  end)).
Proof.
  intros users. subst users. unfold Factory.construct, Factory.create.
  split.
  - intros e ->. done.
  - intros ->. simpl. split.
    + intros e ->. done.
    + intros ->. eexists. split; [reflexivity|].
      intros k. apply layered_lookup.
Qed.

(** X10. The configuration of a handle has the keys of the defaults, of
    the global configuration and of the product configuration, and no
    others, so [baseUrl] and [environment] are always among them. When
    neither caller-supplied layer has a [baseUrl] member the default URL
    stands; a [baseUrl] member that is present with the value [undefined]
    does replace it. *)
Theorem handle_config_keys (globalConfig productConfig : Js.object) :
  validateGlobalConfig E globalConfig = None ->
  exists config : Js.object,
    Factory.construct E globalConfig
      (fun momo => Factory.Disbursements momo productConfig)
    = Resolved
        (Disbursements.new
           (Client.createAuthClient
              (Client.createTokenRefresher Client.authorizeDisbursements
                 config)
              (Client.createClient E config)))
    /\ dom config
       = ({[ "baseUrl"; "environment" ]} ∪ dom globalConfig
            ∪ dom productConfig : gset string)
    /\ (globalConfig !! "baseUrl" = None ->
        productConfig !! "baseUrl" = None ->
        config !! "baseUrl"
        = Some (Js.Str "https://ericssonbasicapi2.azure-api.net"))
    /\ (globalConfig !! "baseUrl" = Some Js.Undefined ->
        productConfig !! "baseUrl" = None ->
        config !! "baseUrl" = Some Js.Undefined).
Proof.
  intros Hg. exists (Factory.layered E globalConfig productConfig).
  split; [by apply construct_Disbursements|].
  split; [apply layered_dom|].
  split; intros H1 H2; by rewrite layered_lookup, H2, H1.
Qed.

End FactoryExtras.

(** ** More on the mock *)

Section MockExtras.
Import Regex Scan.

Lemma matches_onPost (m : Mock.matcher) (s : Z) (d : Js.value)
      (r : Http.request) :
  Http.verb r = Http.GET -> Mock.matches (Mock.onPost m s d) r = false.
Proof. intros H. unfold Mock.matches. simpl. by rewrite H. Qed.

Lemma matches_onGet (m : Mock.matcher) (s : Z) (d : Js.value)
      (r : Http.request) :
  Http.verb r = Http.GET ->
  Mock.matches (Mock.onGet m s d) r
  = match m with
    | Mock.Exactly u => String.eqb (Http.url r) u
    | Mock.Pattern p => test p (Http.url r)
    end.
Proof. intros H. unfold Mock.matches. simpl. by rewrite H. Qed.

(** The mock answers the GET of a transfer whose reference begins with a
    word character or a dash and has no slash: no handler registered
    before the transfer pattern takes the request. *)
Lemma mock_answers_getTransaction (past : list event) (r : Http.request)
      (c : ascii) (id' : string) :
  Http.verb r = Http.GET ->
  Http.url r = "/disbursement/v1_0/transfer/" ++ String c id' ->
  word_or_dash c = true ->
  occurrences "/" (String c id') = 0 ->
  Mock.mock past r = Some (200%Z, Mock.transfer).
Proof.
  intros Hv Hu Hc Hocc.
  assert (occurrences "/" (String c id') <= 0) as Hle by lia.
  unfold Mock.mock, Mock.handlers. cbn [List.find].
  rewrite !matches_onPost, !matches_onGet by done. rewrite Hu.
  rewrite !(test_blocked "/" 0 _ "/disbursement/v1_0/transfer/"
              (String c id') Hle) by (vm_compute; reflexivity).
  rewrite (test_of_prefix _ _
             (prefix_Seq_intro _ _ _ _
                (accepts_Lit "/disbursement/v1_0/transfer/")
                (prefix_Plus_Class word_or_dash c id' Hc))).
  reflexivity.
Qed.

Lemma mock_answers_isPayerActive (past : list event) (r : Http.request)
      (type : Disbursements.PartyIdType) (c : ascii) (id' : string) :
  Http.verb r = Http.GET ->
  Http.url r
  = "/disbursement/v1_0/accountholder/"
      ++ Disbursements.PartyIdType_value type ++ "/" ++ String c id'
      ++ "/active" ->
  word c = true ->
  occurrences "/" (String c id') = 0 ->
  Mock.mock past r = Some (200%Z, Js.Str "true").
Proof.
  intros Hv Hu Hc Hocc.
  assert (occurrences "/" (String c id' ++ "/active") <= 1) as Hle.
  { rewrite occurrences_app, Hocc. simpl. lia. }
  assert (prefix (Plus (Class word)) (String c id' ++ "/active") = true)
    as Hid by apply (prefix_Plus_Class word c _ Hc).
  assert (accepts Mock.partyIdType (Disbursements.PartyIdType_value type)
          = true) as Htype by (destruct type; vm_compute; reflexivity).
  unfold Mock.mock, Mock.handlers. cbn [List.find].
  rewrite !matches_onPost, !matches_onGet by done. rewrite Hu.
  rewrite (test_of_prefix _ _
             (prefix_Seq_intro _ _ _ _
                (accepts_Lit "/disbursement/v1_0/accountholder/")
                (prefix_Seq_intro _ _ _ _ Htype
                   (prefix_Seq_intro _ _ _ _ (accepts_Lit "/") Hid)))).
  destruct type; cbn [Disbursements.PartyIdType_value].
  - change ("/disbursement/v1_0/accountholder/" ++ "MSISDN" ++ "/"
              ++ String c id' ++ "/active")
      with ("/disbursement/v1_0/accountholder/MSISDN/"
              ++ (String c id' ++ "/active")).
    rewrite !(test_blocked "/" 1 _
                "/disbursement/v1_0/accountholder/MSISDN/" _ Hle)
      by (vm_compute; reflexivity).
    reflexivity.
  - change ("/disbursement/v1_0/accountholder/" ++ "EMAIL" ++ "/"
              ++ String c id' ++ "/active")
      with ("/disbursement/v1_0/accountholder/EMAIL/"
              ++ (String c id' ++ "/active")).
    rewrite !(test_blocked "/" 1 _
                "/disbursement/v1_0/accountholder/EMAIL/" _ Hle)
      by (vm_compute; reflexivity).
    reflexivity.
  - change ("/disbursement/v1_0/accountholder/" ++ "PARTY_CODE" ++ "/"
              ++ String c id' ++ "/active")
      with ("/disbursement/v1_0/accountholder/PARTY_CODE/"
              ++ (String c id' ++ "/active")).
    rewrite !(test_blocked "/" 1 _
                "/disbursement/v1_0/accountholder/PARTY_CODE/" _ Hle)
      by (vm_compute; reflexivity).
    reflexivity.
Qed.

Lemma mock_answers_empty_reference (past : list event)
      (r : Http.request) :
  Http.verb r = Http.GET ->
  Http.url r = "/disbursement/v1_0/transfer/" ->
  Mock.mock past r = Some (404%Z, Js.Undefined).
Proof.
  destruct r as [b v u d h]. simpl. intros -> ->. vm_compute. reflexivity.
Qed.

Lemma mock_answers_post_transfer (past : list event) (r : Http.request) :
  Http.verb r = Http.POST ->
  Http.url r = "/disbursement/v1_0/transfer" ->
  Mock.mock past r = Some (201%Z, Js.Undefined).
Proof.
  destruct r as [b v u d h]. simpl. intros -> ->. reflexivity.
Qed.

(** A read on a client without authentication layer is fulfilled with the
    body of a successful answer of the adapter. *)
Lemma fetch_plain (E : env) (i : Axios.instance) (path : string) (w : world)
      (s : Z) (d : Js.value) :
  adapter E (trace w ++ [Issued (Http.mkRequest None Http.GET path None ∅)])
          (Axios.merge i (Http.mkRequest None Http.GET path None ∅))
  = Some (s, d) ->
  Axios.validateStatus s = true ->
  ((await response := Client.get E (Client.Plain i) path in
    Promise.ret (Http.body response)) w).1
  = Resolved d.
Proof.
  intros Ha Hs. unfold Promise.bind, Client.get. rewrite call_run. simpl.
  unfold Axios.request, Axios.dispatch. simpl. by rewrite Ha, Hs.
Qed.

Lemma all_first (p : ascii -> bool) (s : string) :
  s <> "" -> all p s = true ->
  exists c s', s = String c s' /\ p c = true.
Proof.
  destruct s as [|c s']; [done|]. intros _ [Hc _]%andb_true_iff.
  by exists c, s'.
Qed.

(** X11. Against the mock of [createMock], [getTransaction] is fulfilled
    with the transfer record of the mock for every reference that is a
    non-empty string of word characters and dashes, as every UUID is: none
    of the handlers registered before the transfer pattern takes such a
    request. With the empty reference no handler matches: the mock
    answers 404 and the promise is rejected with an [AxiosError] that
    holds a response of that status. *)
Theorem mock_getTransaction_any_reference
        (E : env) (referenceId : string) (w : world) :
  adapter E = Mock.mock ->
  let this := Disbursements.new Mock.createMock.1 in
  (referenceId <> "" ->
   all word_or_dash referenceId = true ->
   (Disbursements.getTransaction E this referenceId w).1
   = Resolved Mock.transfer)
  /\ exists resp,
      (Disbursements.getTransaction E this "" w).1
      = Rejected (AxiosError (Some resp))
      /\ Http.status resp = 404%Z.
Proof.
  intros HE this. split.
  - intros Hne Hall.
    destruct (all_first _ _ Hne Hall) as (c & id' & -> & Hc).
    apply (fetch_plain E _ _ w 200%Z Mock.transfer); [|done].
    rewrite HE. apply (mock_answers_getTransaction _ _ c id'); try done.
    by apply (occurrences_all "/" word_or_dash).
  - unfold Disbursements.getTransaction, Promise.bind, Client.get.
    rewrite call_run. subst this.
    cbn [Disbursements.client Mock.createMock fst Client.request].
    unfold Axios.request, Axios.dispatch. rewrite HE.
    rewrite mock_answers_empty_reference by reflexivity.
    change (Axios.validateStatus 404) with false. cbv iota.
    cbn [fst]. eexists. split; reflexivity.
Qed.

(** X12. Against the mock of [createMock] behind the response
    transformation of axios, [isPayerActive] is fulfilled with the boolean
    [true], which is what [JSON.parse] makes of the mock's reply ["true"],
    for each of the three party types, and for the type left out, and
    every identifier that is a non-empty string of word characters. *)
Theorem mock_isPayerActive_any_party
        (E : env) (parse : string -> option Js.value) (id : string)
        (type : option Disbursements.PartyIdType) (w : world) :
  adapter E = Decode.decoded parse Mock.mock ->
  parse "true" = Some (Js.Bool true) ->
  id <> "" ->
  all word id = true ->
  (Disbursements.isPayerActive E (Disbursements.new Mock.createMock.1)
     id type w).1
  = Resolved (Js.Bool true).
Proof.
  intros HE Hparse Hne Hall.
  destruct (all_first _ _ Hne Hall) as (c & id' & -> & Hc).
  apply (fetch_plain E _ _ w 200%Z (Js.Bool true)); [|done].
  rewrite HE. unfold Decode.decoded.
  rewrite (mock_answers_isPayerActive _ _
             (default Disbursements.MSISDN type) c id'); try done.
  - unfold Decode.transformResponse. by rewrite Hparse.
  - by apply (occurrences_all "/" word).
Qed.

(** X13. The mock of [createMock] answers 201 to the POST of a transfer
    whatever its body and headers, so against it every [transfer] that
    passes validation is fulfilled with its identifier; what is written to
    the console is the request as the adapter received it, with the
    [Content-Type] of the instance and the [X-Reference-Id] of the
    call. *)
Theorem mock_transfer_always_fulfilled
        (E : env) (request : Js.object) (w : world) :
  adapter E = Mock.mock ->
  validateTransfer E (delete "callbackUrl" request) = None ->
  let run :=
    Disbursements.transfer E (Disbursements.new Mock.createMock.1)
                           request w in
  run.1 = Resolved (uuid E (drawn w))
  /\ exists cfg,
      logged (since w run.2) = [cfg]
      /\ sent (since w run.2) = [cfg]
      /\ Http.headers cfg !! "Content-Type"
         = Some (Js.Str "application/json")
      /\ Http.headers cfg !! "X-Reference-Id"
         = Some (Js.Str (uuid E (drawn w))).
Proof.
  intros HE Hv run.
  set (id := uuid E (drawn w)).
  set (req :=
         Http.mkRequest None Http.POST "/disbursement/v1_0/transfer"
           (Some (delete "callbackUrl" request))
           (Disbursements.transferHeaders id
              (Js.get request "callbackUrl"))).
  set (wire :=
         Axios.merge
           (Axios.create None
              {[ "Content-Type" := Js.Str "application/json" ]}) req).
  assert (run
          = (Resolved id,
             mkWorld (now w) (S (drawn w)) (cache w)
                     (trace w ++ [Validated (delete "callbackUrl" request);
                                  Generated id; Issued req; Sent wire;
                                  Logged wire]))) as ->.
  { subst run. rewrite (transfer_valid E _ _ _ Hv). fold id. fold req.
    cbn [Disbursements.client Mock.createMock fst Client.request].
    unfold Axios.request, Axios.dispatch. fold wire. rewrite HE.
    rewrite mock_answers_post_transfer by done.
    change (Axios.validateStatus 201) with true. cbv iota.
    cbn [now drawn cache trace Http.config].
    by rewrite <- !app_assoc. }
  split; [done|]. exists wire. cbn [snd].
  unfold since. cbn [trace]. rewrite drop_app_length.
  split; [reflexivity|]. split; [reflexivity|].
  subst wire. cbn [Axios.merge Http.headers Axios.defaults_headers].
  unfold Js.spread. split.
  - rewrite lookup_union_r; [by rewrite lookup_singleton_eq|].
    subst req. cbn [Http.headers].
    unfold Disbursements.transferHeaders, Js.spread.
    destruct (Js.truthy (Js.get request "callbackUrl")).
    + rewrite lookup_union_None. by rewrite !lookup_singleton_ne.
    + by rewrite (left_id_L ∅ (∪)), lookup_singleton_ne.
  - apply lookup_union_Some_l, transferHeaders_reference.
Qed.

End MockExtras.

(** ** The further properties on the scenarios *)


Lemma transfer_logs_on_success_only_witness :
  let failed :=
    Disbursements.transfer Outage.env Scenario.mockClient Scenario.payout
                           Scenario.world0 in
  let done :=
    Disbursements.transfer Scenario.env Scenario.mockClient Scenario.payout
                           Scenario.world0 in
  logged (since Scenario.world0 failed.2) = []
  /\ exists cfg, logged (since Scenario.world0 done.2) = [cfg].
Proof.
  intros failed done. split.
  - destruct (transfer_logs_on_success_only
                Outage.env Scenario.mockClient Scenario.payout
                Scenario.world0) as (_ & _ & Hrej);
      [vm_compute; reflexivity|].
    apply (Hrej (AxiosError None)). vm_compute. reflexivity.
  - destruct (transfer_logs_on_success_only
                Scenario.env Scenario.mockClient Scenario.payout
                Scenario.world0) as (_ & Hres & _);
      [vm_compute; reflexivity|].
    destruct (Hres "0b7e3f3c-6a1d-4c55-9d0e-3c1f6f5b2a10")
      as (evs & cfg & _ & Hl); [vm_compute; reflexivity|].
    by exists cfg.
Defined.

Lemma successive_transfers_use_successive_ids_witness :
  let run1 :=
    Disbursements.transfer Outage.env Scenario.mockClient Scenario.payout
                           Scenario.world0 in
  let run2 :=
    Disbursements.transfer Outage.env Scenario.mockClient Scenario.payout
                           run1.2 in
  run1.1 = Rejected (AxiosError None)
  /\ generated (since Scenario.world0 run2.2)
     = ["0b7e3f3c-6a1d-4c55-9d0e-3c1f6f5b2a10";
        "5d2c9a44-1f0b-4e6a-8b7c-90a1d4e3f2b6"].
Proof.
  intros run1 run2. split; [vm_compute; reflexivity|].
  apply (successive_transfers_use_successive_ids
           Outage.env Scenario.mockClient Scenario.payout Scenario.payout
           Scenario.world0); vm_compute; reflexivity.
Defined.

Lemma transfer_falsy_callbackUrl_is_absent_witness :
  Disbursements.transfer Scenario.env Scenario.mockClient
    (<["callbackUrl" := Js.Str ""]> Scenario.payout) Scenario.world0
  = Disbursements.transfer Scenario.env Scenario.mockClient
      (<["callbackUrl" := Js.Null]> Scenario.payout) Scenario.world0.
Proof.
  apply (transfer_falsy_callbackUrl_is_absent Scenario.env
           Scenario.mockClient); vm_compute; reflexivity.
Defined.

Lemma transfer_does_not_validate_callbackUrl_witness :
  exists req,
    issued (since Scenario.world0
              (Disbursements.transfer Scenario.env Scenario.mockClient
                 (<["callbackUrl" := Js.Num 5]> Scenario.payout)
                 Scenario.world0).2)
    = [req]
    /\ Http.headers req !! "X-Callback-Url" = Some (Js.Num 5).
Proof.
  destruct (transfer_does_not_validate_callbackUrl
              Scenario.env Scenario.mockClient Scenario.payout (Js.Num 5)
              Scenario.world0) as (_ & _ & Hvalid).
  destruct Hvalid as (req & Hi & _ & Hcb); [vm_compute; reflexivity|].
  exists req. split; [exact Hi | exact Hcb].
Defined.

Lemma transfer_sets_only_its_own_headers_witness :
  exists req,
    issued (since Scenario.world0
              (Disbursements.transfer Scenario.env Scenario.mockClient
                 Scenario.payout Scenario.world0).2)
    = [req]
    /\ dom (Http.headers req) = ({[ "X-Reference-Id" ]} : gset string).
Proof.
  destruct (transfer_sets_only_its_own_headers
              Scenario.env Scenario.mockClient Scenario.payout
              Scenario.world0) as (req & Hi & _ & Hdom);
    [vm_compute; reflexivity|].
  exists req. split; [exact Hi | exact Hdom].
Defined.

Lemma users_member_outcome_witness :
  Factory.construct Scenario.env ∅ (fun momo => Factory.Users momo ∅)
  = Rejected (ConfigurationError "primaryKey is required")
  /\ Factory.construct Scenario.env {[ "callbackHost" := Js.Str "" ]}
       (fun momo => Factory.Users momo ∅)
     = Rejected (ConfigurationError "callbackHost is required").
Proof.
  split.
  - destruct (users_member_outcome Scenario.env ∅ ∅) as [_ Haccepted].
    destruct Haccepted as [Hrefused _]; [vm_compute; reflexivity|].
    apply Hrefused. vm_compute. reflexivity.
  - destruct (users_member_outcome Scenario.env
                {[ "callbackHost" := Js.Str "" ]} ∅) as [Hglobal _].
    apply Hglobal. vm_compute. reflexivity.
Defined.

Lemma handle_config_keys_witness :
  exists config : Js.object,
    dom config
    = ({[ "baseUrl"; "environment" ]} ∪ dom (∅ : Js.object)
         ∪ dom Scenario.productConfig : gset string)
    /\ config !! "baseUrl"
       = Some (Js.Str "https://ericssonbasicapi2.azure-api.net").
Proof.
  destruct (handle_config_keys Scenario.env ∅ Scenario.productConfig)
    as (config & _ & Hdom & Hdefault & _); [vm_compute; reflexivity|].
  exists config. split; [exact Hdom|].
  apply Hdefault; vm_compute; reflexivity.
Defined.

Lemma mock_getTransaction_any_reference_witness :
  (Disbursements.getTransaction Scenario.env
     (Disbursements.new Mock.createMock.1)
     "5d2c9a44-1f0b-4e6a-8b7c-90a1d4e3f2b6" Scenario.world0).1
  = Resolved Mock.transfer.
Proof.
  destruct (mock_getTransaction_any_reference
              Scenario.env "5d2c9a44-1f0b-4e6a-8b7c-90a1d4e3f2b6"
              Scenario.world0) as [Hany _].
  - reflexivity.
  - apply Hany.
    + intros H. discriminate H.
    + vm_compute. reflexivity.
Defined.


Lemma mock_isPayerActive_any_party_witness :
  (Disbursements.isPayerActive Decode.env
     (Disbursements.new Mock.createMock.1) "256772000000"
     (Some Disbursements.EMAIL) Scenario.world0).1
  = Resolved (Js.Bool true).
Proof.
  apply (mock_isPayerActive_any_party Decode.env Decode.literal).
  - reflexivity.
  - reflexivity.
  - intros H. discriminate H.
  - vm_compute. reflexivity.
Defined.

Lemma mock_transfer_always_fulfilled_witness :
  (Disbursements.transfer Scenario.env
     (Disbursements.new Mock.createMock.1)
     (<["callbackUrl" := Js.Str "https://example.org/cb"]> Scenario.payout)
     Scenario.world0).1
  = Resolved "0b7e3f3c-6a1d-4c55-9d0e-3c1f6f5b2a10".
Proof.
  apply (mock_transfer_always_fulfilled Scenario.env
           (<["callbackUrl" := Js.Str "https://example.org/cb"]>
              Scenario.payout) Scenario.world0).
  - reflexivity.
  - vm_compute. reflexivity.
Defined.

(** ** The other routes of the mock *)

Section MockRoutes.
Import Regex Scan.

Lemma accepts_Seq_Eps (r : regex) (s : string) :
  accepts r s = true -> accepts (Seq Eps r) s = true.
Proof. intros H. by apply (accepts_Seq_intro Eps r "" s). Qed.

(** A string of characters of the class is a repetition of the class. *)
Lemma accepts_Star_all (p : ascii -> bool) (s : string) :
  all p s = true -> accepts (Star (Class p)) s = true.
Proof.
  induction s as [|c s IH]; [done|]. simpl.
  intros [Hc Hs]%andb_true_iff. rewrite Hc. by apply accepts_Seq_Eps, IH.
Qed.

Lemma accepts_Plus_all (p : ascii -> bool) (s : string) :
  s <> "" -> all p s = true -> accepts (Plus (Class p)) s = true.
Proof.
  destruct s as [|c s]; [done|]. intros _ [Hc Hs]%andb_true_iff.
  simpl. rewrite Hc. by apply accepts_Seq_Eps, accepts_Star_all.
Qed.

Lemma matches_onGet_post (m : Mock.matcher) (s : Z) (d : Js.value)
      (r : Http.request) :
  Http.verb r = Http.POST -> Mock.matches (Mock.onGet m s d) r = false.
Proof. intros H. unfold Mock.matches. simpl. by rewrite H. Qed.

Lemma matches_onPost_post (m : Mock.matcher) (s : Z) (d : Js.value)
      (r : Http.request) :
  Http.verb r = Http.POST ->
  Mock.matches (Mock.onPost m s d) r
  = match m with
    | Mock.Exactly u => String.eqb (Http.url r) u
    | Mock.Pattern p => test p (Http.url r)
    end.
Proof. intros H. unfold Mock.matches. simpl. by rewrite H. Qed.

(** X14. The routes of [createMock] for collections and user
    provisioning do not shadow one another: for every identifier that is a
    non-empty string of word characters and dashes, the GET of
    [/collection/v1_0/requesttopay/{id}] is answered with the collection
    record and the POST of [/v1_0/apiuser/{id}/apikey] with the API key,
    and for every non-empty identifier of word characters and each party
    type, the GET of [/collection/v1_0/accountholder/{type}/{id}] is
    answered with ["true"]. *)
Theorem mock_routes_collections_and_users
        (past : list event) (r : Http.request) (id : string)
        (type : Disbursements.PartyIdType) :
  id <> "" ->
  (all word_or_dash id = true ->
   Http.verb r = Http.GET ->
   Http.url r = "/collection/v1_0/requesttopay/" ++ id ->
   Mock.mock past r = Some (200%Z, Mock.collection))
  /\ (all word_or_dash id = true ->
      Http.verb r = Http.POST ->
      Http.url r = "/v1_0/apiuser/" ++ id ++ "/apikey" ->
      Mock.mock past r
      = Some (200%Z, Js.Obj {[ "apiKey" := Js.Str "api-key" ]}))
  /\ (all word id = true ->
      Http.verb r = Http.GET ->
      Http.url r
      = "/collection/v1_0/accountholder/"
          ++ Disbursements.PartyIdType_value type ++ "/" ++ id ->
      Mock.mock past r = Some (200%Z, Js.Str "true")).
Proof.
  intros Hne. split; [|split].
  - intros Hall Hv Hu.
    destruct (all_first _ _ Hne Hall) as (c & id' & -> & Hc).
    assert (occurrences "/" (String c id') <= 0) as Hle
      by (rewrite (occurrences_all "/" word_or_dash); done).
    unfold Mock.mock, Mock.handlers. cbn [List.find].
    rewrite !matches_onPost, !matches_onGet by done. rewrite Hu.
    rewrite !(test_blocked "/" 0 _ "/collection/v1_0/requesttopay/"
                (String c id') Hle) by (vm_compute; reflexivity).
    rewrite (test_of_prefix _ _
               (prefix_Seq_intro _ _ _ _
                  (accepts_Lit "/collection/v1_0/requesttopay/")
                  (prefix_Plus_Class word_or_dash c id' Hc))).
    reflexivity.
  - intros Hall Hv Hu.
    unfold Mock.mock, Mock.handlers. cbn [List.find].
    rewrite !matches_onGet_post, !matches_onPost_post by done. rewrite Hu.
    assert (prefix (Lit "/apikey") "/apikey" = true) as Hkey
      by (vm_compute; reflexivity).
    rewrite (test_of_prefix _ _
               (prefix_Seq_intro _ _ _ _
                  (accepts_Lit "/v1_0/apiuser/")
                  (prefix_Seq_intro _ _ _ _
                     (accepts_Plus_all word_or_dash id Hne Hall) Hkey))).
    destruct id as [|c id']; [done|]. reflexivity.
  - intros Hall Hv Hu.
    destruct (all_first _ _ Hne Hall) as (c & id' & -> & Hc).
    assert (accepts Mock.partyIdType (Disbursements.PartyIdType_value type)
            = true) as Htype by (destruct type; vm_compute; reflexivity).
    unfold Mock.mock, Mock.handlers. cbn [List.find].
    rewrite !matches_onPost, !matches_onGet by done. rewrite Hu.
    rewrite (test_of_prefix _ _
               (prefix_Seq_intro _ _ _ _
                  (accepts_Lit "/collection/v1_0/accountholder/")
                  (prefix_Seq_intro _ _ _ _ Htype
                     (prefix_Seq_intro _ _ _ _ (accepts_Lit "/")
                        (prefix_Plus_Class word c id' Hc))))).
    destruct type; reflexivity.
Qed.

End MockRoutes.

Lemma mock_routes_collections_and_users_witness :
  Mock.mock []
    (Http.mkRequest None Http.GET
       "/collection/v1_0/requesttopay/5d2c9a44-1f0b-4e6a-8b7c-90a1d4e3f2b6"
       None ∅)
  = Some (200%Z, Mock.collection).
Proof.
  apply (mock_routes_collections_and_users []
           _ "5d2c9a44-1f0b-4e6a-8b7c-90a1d4e3f2b6" Disbursements.MSISDN).
  - intros H. discriminate H.
  - vm_compute. reflexivity.
  - reflexivity.
  - reflexivity.
Defined.
